(** * BuildXL sandbox: the per-pip tracker and the canonicalized path value

    A shallow embedding of

    - [Public/Src/Sandbox/MacOs/Sandbox/Src/SandboxedPip.cpp]
      (with the tunables declared in [SysCtl.hpp]), and
    - [Public/Src/Sandbox/Windows/DetoursServices/CanonicalizedPath.h],

    followed by the properties of the tracker's construction, of its one-way
    cache governor and of the path value's accessors. *)

From Stdlib Require Import ZArith NArith Lia Bool.
From Stdlib Require Import Floats.SpecFloat.
From stdpp Require Import base option list strings relations.

Open Scope Z_scope.

(* ===================================================================== *)
(** * IEEE 754 binary64, the C++ [double] *)
(* ===================================================================== *)

(** The macro [PCT] computes in [double].  The operations are the ones of the
    Standard Library's executable specification of binary floating point, at
    the binary64 format, with round-to-nearest-even. *)
Module Double.

Definition prec : Z := 53.
Definition emax : Z := 1024.

Definition double := spec_float.

(** Integer to [double] conversion. *)
Definition of_int (z : Z) : double := binary_normalize prec emax z 0 false.

Definition mul (x y : double) : double := SFmul prec emax x y.
Definition div (x y : double) : double := SFdiv prec emax x y.

Definition INT_MIN : Z := - 2 ^ 31.
Definition INT_MAX : Z := 2 ^ 31 - 1.

(** The cast [(int) x]: the fractional part is discarded.  The conversion
    is undefined ([None]) for a NaN, an infinity, or a value whose integral
    part does not fit an [int]. *)
Definition to_int (x : double) : option Z :=
  match x with
  | S754_zero _ => Some 0
  | S754_finite s m e =>
      let t := cond_Zopp s (Z.shiftl (Z.pos m) e) in
      if (INT_MIN <=? t) && (t <=? INT_MAX) then Some t else None
  | S754_infinity _ | S754_nan => None
  end.

End Double.

(* ===================================================================== *)
(** * The tunables of [SysCtl.hpp] *)
(* ===================================================================== *)

(** The [extern int] globals.  They are process-wide and may be changed
    through sysctl at any time, so every reader takes the current values as
    an argument. *)
Record SysCtl := {
  g_bxl_enable_counters : Z;
  g_bxl_verbose_logging : Z;
  g_bxl_enable_cache : Z;
  g_bxl_enable_light_trie : Z;
  g_bxl_disable_cache_min_entries : Z;
  g_bxl_disable_cache_max_hit_pct : Z
}.

(* ===================================================================== *)
(** * The tracker object *)
(* ===================================================================== *)

(** A pointer is [None] (nullptr) or the address of a heap cell. *)
Abbreviation addr := nat (only parsing).
Abbreviation ptr := (option nat) (only parsing).

(** Modelled from the spec: the counter type is declared outside the
    sources; the hit and miss counters are monotonically increasing counts. *)
Record Counters := {
  numCacheHits : N;
  numCacheMisses : N
}.

(** The policy manifest is an external collaborator: what the tracker sees of
    it is whether parsing reported an error, and the pip id. *)
Record FileAccessManifest := {
  fam_error : option string;
  fam_pipId : Z
}.

Definition HasErrors (fam : FileAccessManifest) : bool :=
  match fam_error fam with Some _ => true | None => false end.

(** The data members of [SandboxedPip] that the source file uses. *)
Record SandboxedPip := {
  clientPid_ : Z;
  payload_ : ptr;
  processId_ : Z;
  processTreeCount_ : Z;
  counters_ : Counters;
  disableCaching_ : bool;
  cacheCallCnt_ : Z;
  fam_ : FileAccessManifest;
  oldPathCache_ : ptr;
  pathCache_ : ptr;
  lastPathLookup_ : ptr
}.

Definition set_clientPid_ (v : Z) (p : SandboxedPip) : SandboxedPip :=
  {| clientPid_ := v; payload_ := payload_ p; processId_ := processId_ p;
     processTreeCount_ := processTreeCount_ p; counters_ := counters_ p;
     disableCaching_ := disableCaching_ p; cacheCallCnt_ := cacheCallCnt_ p;
     fam_ := fam_ p; oldPathCache_ := oldPathCache_ p;
     pathCache_ := pathCache_ p; lastPathLookup_ := lastPathLookup_ p |}.

Definition set_payload_ (v : ptr) (p : SandboxedPip) : SandboxedPip :=
  {| clientPid_ := clientPid_ p; payload_ := v; processId_ := processId_ p;
     processTreeCount_ := processTreeCount_ p; counters_ := counters_ p;
     disableCaching_ := disableCaching_ p; cacheCallCnt_ := cacheCallCnt_ p;
     fam_ := fam_ p; oldPathCache_ := oldPathCache_ p;
     pathCache_ := pathCache_ p; lastPathLookup_ := lastPathLookup_ p |}.

Definition set_processId_ (v : Z) (p : SandboxedPip) : SandboxedPip :=
  {| clientPid_ := clientPid_ p; payload_ := payload_ p; processId_ := v;
     processTreeCount_ := processTreeCount_ p; counters_ := counters_ p;
     disableCaching_ := disableCaching_ p; cacheCallCnt_ := cacheCallCnt_ p;
     fam_ := fam_ p; oldPathCache_ := oldPathCache_ p;
     pathCache_ := pathCache_ p; lastPathLookup_ := lastPathLookup_ p |}.

Definition set_processTreeCount_ (v : Z) (p : SandboxedPip) : SandboxedPip :=
  {| clientPid_ := clientPid_ p; payload_ := payload_ p;
     processId_ := processId_ p;
     processTreeCount_ := v; counters_ := counters_ p;
     disableCaching_ := disableCaching_ p; cacheCallCnt_ := cacheCallCnt_ p;
     fam_ := fam_ p; oldPathCache_ := oldPathCache_ p;
     pathCache_ := pathCache_ p; lastPathLookup_ := lastPathLookup_ p |}.

Definition set_counters_ (v : Counters) (p : SandboxedPip) : SandboxedPip :=
  {| clientPid_ := clientPid_ p; payload_ := payload_ p;
     processId_ := processId_ p;
     processTreeCount_ := processTreeCount_ p; counters_ := v;
     disableCaching_ := disableCaching_ p; cacheCallCnt_ := cacheCallCnt_ p;
     fam_ := fam_ p; oldPathCache_ := oldPathCache_ p;
     pathCache_ := pathCache_ p; lastPathLookup_ := lastPathLookup_ p |}.

Definition set_disableCaching_ (v : bool) (p : SandboxedPip) : SandboxedPip :=
  {| clientPid_ := clientPid_ p; payload_ := payload_ p;
     processId_ := processId_ p;
     processTreeCount_ := processTreeCount_ p; counters_ := counters_ p;
     disableCaching_ := v; cacheCallCnt_ := cacheCallCnt_ p;
     fam_ := fam_ p; oldPathCache_ := oldPathCache_ p;
     pathCache_ := pathCache_ p; lastPathLookup_ := lastPathLookup_ p |}.

Definition set_cacheCallCnt_ (v : Z) (p : SandboxedPip) : SandboxedPip :=
  {| clientPid_ := clientPid_ p; payload_ := payload_ p;
     processId_ := processId_ p;
     processTreeCount_ := processTreeCount_ p; counters_ := counters_ p;
     disableCaching_ := disableCaching_ p; cacheCallCnt_ := v;
     fam_ := fam_ p; oldPathCache_ := oldPathCache_ p;
     pathCache_ := pathCache_ p; lastPathLookup_ := lastPathLookup_ p |}.

Definition set_fam_ (v : FileAccessManifest) (p : SandboxedPip) : SandboxedPip :=
  {| clientPid_ := clientPid_ p; payload_ := payload_ p;
     processId_ := processId_ p;
     processTreeCount_ := processTreeCount_ p; counters_ := counters_ p;
     disableCaching_ := disableCaching_ p; cacheCallCnt_ := cacheCallCnt_ p;
     fam_ := v; oldPathCache_ := oldPathCache_ p;
     pathCache_ := pathCache_ p; lastPathLookup_ := lastPathLookup_ p |}.

Definition set_oldPathCache_ (v : ptr) (p : SandboxedPip) : SandboxedPip :=
  {| clientPid_ := clientPid_ p; payload_ := payload_ p;
     processId_ := processId_ p;
     processTreeCount_ := processTreeCount_ p; counters_ := counters_ p;
     disableCaching_ := disableCaching_ p; cacheCallCnt_ := cacheCallCnt_ p;
     fam_ := fam_ p; oldPathCache_ := v;
     pathCache_ := pathCache_ p; lastPathLookup_ := lastPathLookup_ p |}.

Definition set_pathCache_ (v : ptr) (p : SandboxedPip) : SandboxedPip :=
  {| clientPid_ := clientPid_ p; payload_ := payload_ p;
     processId_ := processId_ p;
     processTreeCount_ := processTreeCount_ p; counters_ := counters_ p;
     disableCaching_ := disableCaching_ p; cacheCallCnt_ := cacheCallCnt_ p;
     fam_ := fam_ p; oldPathCache_ := oldPathCache_ p;
     pathCache_ := v; lastPathLookup_ := lastPathLookup_ p |}.

Definition set_lastPathLookup_ (v : ptr) (p : SandboxedPip) : SandboxedPip :=
  {| clientPid_ := clientPid_ p; payload_ := payload_ p;
     processId_ := processId_ p;
     processTreeCount_ := processTreeCount_ p; counters_ := counters_ p;
     disableCaching_ := disableCaching_ p; cacheCallCnt_ := cacheCallCnt_ p;
     fam_ := fam_ p; oldPathCache_ := oldPathCache_ p;
     pathCache_ := pathCache_ p; lastPathLookup_ := v |}.

(** [new SandboxedPip]: libkern's [OSObject::operator new] hands out
    zero-filled memory, so every pointer member starts as nullptr and every
    scalar as 0; [fam_] is default-constructed. *)
Definition zeroed : SandboxedPip :=
  {| clientPid_ := 0; payload_ := None; processId_ := 0;
     processTreeCount_ := 0;
     counters_ := {| numCacheHits := 0; numCacheMisses := 0 |};
     disableCaching_ := false; cacheCallCnt_ := 0;
     fam_ := {| fam_error := None; fam_pipId := 0 |};
     oldPathCache_ := None; pathCache_ := None; lastPathLookup_ := None |}.

(* ===================================================================== *)
(** * Reference-counted kernel objects *)
(* ===================================================================== *)

(** Modelled from the spec: [Trie] (the DecisionCache) and [ThreadLocal] (the
    PerThreadLastLookup table) are declared outside the sources.  The cache is
    an add-only collection of path keys whose count is the number of entries;
    the table holds one (thread, last path) record per calling thread.  Both
    are created empty. *)
Inductive OSObject :=
| ObjBuffer (bytes : list Byte.byte)
| ObjTrie (entries : list string)
| ObjThreadLocal (slots : list (nat * string))
| ObjPip (p : SandboxedPip).

(** A heap cell: the object and its retain count.  A cell whose count is 0
    has been freed; addresses are never reused. *)
Record cell := Cell { retainCount : nat; obj : OSObject }.

Abbreviation heap := (list cell) (only parsing).

(** Allocation of a new object with retain count 1, at the next address. *)
Definition alloc (o : OSObject) (h : heap) : heap * addr :=
  (h ++ [Cell 1 o], length h).

(** [OSObject::retain], and [OSObject::release] for the objects whose
    [free()] is outside the sources (a buffer, a cache, a lookup table):
    the count drops, and at 0 the cell is dead. *)
Definition retain (l : addr) (h : heap) : heap :=
  alter (λ c, Cell (S (retainCount c)) (obj c)) l h.

Definition release (l : addr) (h : heap) : heap :=
  alter (λ c, Cell (pred (retainCount c)) (obj c)) l h.

(** [OSSafeReleaseNULL(p)]: release [p] when it is not null, then set it to
    null.  The new value of the pointer variable is the second component. *)
Definition OSSafeReleaseNULL (p : ptr) (h : heap) : heap * ptr :=
  match p with
  | Some l => (release l h, None)
  | None => (h, None)
  end.

(** [Trie::createPathTrie()] and [ThreadLocal::create()]: a new empty object,
    or nullptr when the allocation fails ([ok = false]). *)
Definition createPathTrie (ok : bool) (h : heap) : heap * ptr :=
  if ok then let '(h', l) := alloc (ObjTrie []) h in (h', Some l) else (h, None).

Definition ThreadLocal_create (ok : bool) (h : heap) : heap * ptr :=
  if ok then let '(h', l) := alloc (ObjThreadLocal []) h in (h', Some l)
  else (h, None).

(** Dereferencing: the live object a pointer designates.  A null or dangling
    pointer has none. *)
Definition deref (h : heap) (p : ptr) : option OSObject :=
  l ← p; c ← h !! l;
  if decide (0 < retainCount c)%nat then Some (obj c) else None.

Definition trie_at (h : heap) (p : ptr) : option (list string) :=
  o ← deref h p; match o with ObjTrie es => Some es | _ => None end.

Definition buffer_at (h : heap) (p : ptr) : option (list Byte.byte) :=
  o ← deref h p; match o with ObjBuffer bs => Some bs | _ => None end.

Definition table_at (h : heap) (p : ptr) : option (list (nat * string)) :=
  o ← deref h p; match o with ObjThreadLocal ss => Some ss | _ => None end.

(** [Trie::getCount()]. *)
Definition getCount (entries : list string) : Z := Z.of_nat (length entries).

(** [OSCompareAndSwapPtr(old, new, &target)] on the value of the target:
    whether the swap happens, and the target afterwards. *)
Definition OSCompareAndSwapPtr (old new target : ptr) : bool * ptr :=
  if decide (target = old) then (true, new) else (false, target).

(* ===================================================================== *)
(** * Construction and teardown: [init], [free], [create] *)
(* ===================================================================== *)

(** What the environment decides during a construction: whether
    [new SandboxedPip], [OSObject::init], [Trie::createPathTrie] and
    [ThreadLocal::create] succeed. *)
Record Oracle := {
  new_ok : bool;
  super_init_ok : bool;
  trie_ok : bool;
  table_ok : bool
}.

(** [SandboxedPip::free()].  The verbose log line only reads, under a null
    check of the two pointers it dereferences, and is left out.  The result
    is the object with its four pointers reset and the heap after the
    releases; [super::free()] then gives the memory of the object back, which
    is the caller's [release_pip] marking the cell dead. *)
Definition free (this : SandboxedPip) (h : heap) : SandboxedPip * heap :=
  let '(h, p) := OSSafeReleaseNULL (payload_ this) h in
  let this := set_payload_ p this in
  let '(h, p) := OSSafeReleaseNULL (lastPathLookup_ this) h in
  let this := set_lastPathLookup_ p this in
  let '(h, p) := OSSafeReleaseNULL (pathCache_ this) h in
  let this := set_pathCache_ p this in
  let '(h, p) := OSSafeReleaseNULL (oldPathCache_ this) h in
  let this := set_oldPathCache_ p this in
  (this, h).

(** [OSObject::release] on a tracker: the count drops, and when it reaches 0
    [free()] runs and the cell is dead. *)
Definition release_pip (l : addr) (h : heap) : heap :=
  match h !! l with
  | Some (Cell n (ObjPip p)) =>
      if decide (n ≤ 1)%nat then
        let '(p', h') := free p h in <[l := Cell 0 (ObjPip p')]> h'
      else <[l := Cell (pred n) (ObjPip p)]> h
  | _ => h
  end.

Section Construction.

(** [FileAccessManifest::init(bytes, size)]: the parser is outside the
    sources and is a parameter. *)
Variable fam_init : list Byte.byte -> FileAccessManifest.

(** [SandboxedPip::init].  [None] is a dereference of a null or dangling
    [payload]; otherwise the object, the heap and the returned flag. *)
Definition init (ctl : SysCtl) (o : Oracle) (clientPid processPid : Z)
    (payload : ptr) (this : SandboxedPip) (h : heap)
  : option (SandboxedPip * heap * bool) :=
  if negb (super_init_ok o) then Some (this, h, false)
  else
    let this := set_clientPid_ clientPid this in
    let this := set_payload_ payload this in
    let this := set_processId_ processPid this in
    let this := set_processTreeCount_ 1 this in
    let this :=
      set_counters_ {| numCacheHits := 0; numCacheMisses := 0 |} this in
    let this :=
      set_disableCaching_ (g_bxl_enable_cache ctl =? 0) this in
    let this := set_cacheCallCnt_ 0 this in
    _ ← deref h (payload_ this);
    l ← payload_ this;
    let h := retain l h in
    bytes ← buffer_at h (payload_ this);
    let this := set_fam_ (fam_init bytes) this in
    if HasErrors (fam_ this) then Some (this, h, false)
    else
      let this := set_oldPathCache_ None this in
      let '(h, p) := createPathTrie (trie_ok o) h in
      let this := set_pathCache_ p this in
      if decide (pathCache_ this = None) then Some (this, h, false)
      else
        let '(h, p) := ThreadLocal_create (table_ok o) h in
        let this := set_lastPathLookup_ p this in
        if decide (lastPathLookup_ this = None) then Some (this, h, false)
        else Some (this, h, true).

(** [SandboxedPip::create].  The result is the heap and the returned
    pointer.  The new object lives in a heap cell with retain count 1;
    [init] works on the object itself and the cell is updated at its end. *)
Definition create (ctl : SysCtl) (o : Oracle) (clientPid processPid : Z)
    (payload : ptr) (h : heap) : option (heap * ptr) :=
  if negb (new_ok o) then Some (h, None)
  else
    let '(h, instance) := alloc (ObjPip zeroed) h in
    '(this, h, initialized) ← init ctl o clientPid processPid payload zeroed h;
    let h := <[instance := Cell 1 (ObjPip this)]> h in
    if negb initialized then Some (release_pip instance h, None)
    else Some (h, Some instance).

End Construction.

(** The tracker a pointer designates. *)
Definition pip_at (h : heap) (p : ptr) : option SandboxedPip :=
  o ← deref h p; match o with ObjPip t => Some t | _ => None end.

(* ===================================================================== *)
(** * The cache governor: [PCT], [ShouldDisableCaching],
      [RefreshDisableCaching] *)
(* ===================================================================== *)

(** [# define PCT(a, b) (int)(((a) * 1.0) / ((a) + (b)) * 100)]: [a] goes to
    [double] for the product with [1.0], the sum [a + b] is an integer sum
    converted for the division, [100] is converted for the last product, and
    the cast truncates. *)
Definition PCT (a b : Z) : option Z :=
  Double.to_int
    (Double.mul
       (Double.div (Double.mul (Double.of_int a) (Double.of_int 1))
                   (Double.of_int (a + b)))
       (Double.of_int 100)).

(** The tracker and the heap its pointers designate. *)
Record world := World { this : SandboxedPip; objs : heap }.

(** [SandboxedPip::ShouldDisableCaching].  [&&] evaluates its right operand
    only when the left one holds.  [None] is undefined behaviour: a null or
    dangling [pathCache_], or an undefined cast in [PCT]. *)
Definition ShouldDisableCaching (ctl : SysCtl) (w : world) : option bool :=
  entries ← trie_at (objs w) (pathCache_ (this w));
  if getCount entries >? g_bxl_disable_cache_min_entries ctl then
    pct ← PCT (Z.of_N (numCacheHits (counters_ (this w))))
              (Z.of_N (numCacheMisses (counters_ (this w))));
    Some (pct <? g_bxl_disable_cache_max_hit_pct ctl)
  else Some false.

(** [SandboxedPip::RefreshDisableCaching], run by one caller without
    interference.  [alloc_ok] tells whether [Trie::createPathTrie] succeeds.
    The result is the world afterwards and the returned flag. *)
Definition RefreshDisableCaching (ctl : SysCtl) (alloc_ok : bool) (w : world)
  : option (world * bool) :=
  if negb (disableCaching_ (this w)) then
    should ← ShouldDisableCaching ctl w;
    if should : bool then
      let t := set_disableCaching_ true (this w) in
      let oldCache := pathCache_ t in
      let '(h, newCache) := createPathTrie alloc_ok (objs w) in
      let '(swapped, target) :=
        OSCompareAndSwapPtr oldCache newCache (pathCache_ t) in
      let t := set_pathCache_ target t in
      if swapped then
        let t := set_oldPathCache_ oldCache t in
        Some (World t h, disableCaching_ t)
      else
        let '(h, _) := OSSafeReleaseNULL newCache h in
        Some (World t h, disableCaching_ t)
    else Some (w, disableCaching_ (this w))
  else Some (w, disableCaching_ (this w)).

(* ===================================================================== *)
(** * [RefreshDisableCaching] under concurrency *)
(* ===================================================================== *)

(** Many dispatch contexts call [RefreshDisableCaching] on one tracker at the
    same time.  Each call is a frame: the next statement to run, named by its
    source line, and the two locals.  One step of a frame is one access to the
    shared tracker. *)
Inductive label :=
| L105            (* if (!disableCaching_) *)
| L136            (* pathCache_->getCount() > g_bxl_disable_cache_min_entries *)
| L138            (* PCT(numCacheHits, numCacheMisses) < ..._max_hit_pct *)
| L110            (* disableCaching_ = true *)
| L111            (* Trie *oldCache = pathCache_ *)
| L112            (* Trie *newCache = Trie::createPathTrie() *)
| L113            (* OSCompareAndSwapPtr(oldCache, newCache, &pathCache_) *)
| L117            (* oldPathCache_ = oldCache *)
| L122            (* OSSafeReleaseNULL(newCache) *)
| L127            (* return disableCaching_ *)
| Returned (r : bool).

Record frame := Frame { at_ : label; oldCache : ptr; newCache : ptr }.

Definition entry : frame := Frame L105 None None.

Definition goto (l : label) (f : frame) : frame :=
  Frame l (oldCache f) (newCache f).

(** One step of a frame.  [None]: the frame has returned, or the step is
    undefined behaviour. *)
Definition thread_step (ctl : SysCtl) (alloc_ok : bool) (w : world) (f : frame)
  : option (world * frame) :=
  match at_ f with
  | L105 =>
      if negb (disableCaching_ (this w)) then Some (w, goto L136 f)
      else Some (w, goto L127 f)
  | L136 =>
      entries ← trie_at (objs w) (pathCache_ (this w));
      if getCount entries >? g_bxl_disable_cache_min_entries ctl
      then Some (w, goto L138 f) else Some (w, goto L127 f)
  | L138 =>
      pct ← PCT (Z.of_N (numCacheHits (counters_ (this w))))
                (Z.of_N (numCacheMisses (counters_ (this w))));
      if pct <? g_bxl_disable_cache_max_hit_pct ctl
      then Some (w, goto L110 f) else Some (w, goto L127 f)
  | L110 =>
      Some (World (set_disableCaching_ true (this w)) (objs w), goto L111 f)
  | L111 =>
      Some (w, Frame L112 (pathCache_ (this w)) (newCache f))
  | L112 =>
      let '(h, p) := createPathTrie alloc_ok (objs w) in
      Some (World (this w) h, Frame L113 (oldCache f) p)
  | L113 =>
      let '(swapped, target) :=
        OSCompareAndSwapPtr (oldCache f) (newCache f) (pathCache_ (this w)) in
      Some (World (set_pathCache_ target (this w)) (objs w),
            goto (if swapped then L117 else L122) f)
  | L117 =>
      Some (World (set_oldPathCache_ (oldCache f) (this w)) (objs w),
            goto L127 f)
  | L122 =>
      let '(h, p) := OSSafeReleaseNULL (newCache f) (objs w) in
      Some (World (this w) h, Frame L127 (oldCache f) p)
  | L127 =>
      Some (w, goto (Returned (disableCaching_ (this w))) f)
  | Returned _ => None
  end.

(** The value a frame has returned, if it has. *)
Definition returned (f : frame) : option bool :=
  match at_ f with Returned r => Some r | _ => None end.

(** A frame run to its return by itself: the world, the returned flag, and
    the statements executed, in order. *)
Fixpoint run_thread (fuel : nat) (ctl : SysCtl) (alloc_ok : bool)
    (w : world) (f : frame) : option (world * bool * list label) :=
  match returned f with
  | Some r => Some (w, r, [])
  | None =>
      match fuel with
      | O => None
      | S fuel' =>
          '(w', f') ← thread_step ctl alloc_ok w f;
          '(w'', r, ls) ← run_thread fuel' ctl alloc_ok w' f';
          Some (w'', r, at_ f :: ls)
      end
  end.

(** The statements of one call: at most nine run. *)
Definition call_fuel : nat := 9.

(** A configuration: the shared tracker and the calls in flight. *)
Record config := Config { shared : world; frames : list frame }.

Definition caching_disabled (c : config) : bool :=
  disableCaching_ (this (shared c)).

(** [SandboxedPip::introspect()].  The getters behind it are declared outside
    the sources; each returns the member of its name, and the cache size is
    [pathCache_->getCount()]. *)
Record PipInfo := {
  pid : Z;
  clientPid : Z;
  pipId : Z;
  cacheSize : Z;
  treeSize : Z;
  counters : Counters;
  numReportedChildren : Z;
  children : list Z
}.

Definition introspect (w : world) : option PipInfo :=
  entries ← trie_at (objs w) (pathCache_ (this w));
  Some {| pid := processId_ (this w);
          clientPid := clientPid_ (this w);
          pipId := fam_pipId (fam_ (this w));
          cacheSize := getCount entries;
          treeSize := processTreeCount_ (this w);
          counters := counters_ (this w);
          numReportedChildren := 0;
          children := [] |}.

(** The operations of the source file on a constructed tracker, interleaved:
    a new call of [RefreshDisableCaching] enters, a call in flight takes one
    step under the current tunables, or [introspect] reads. *)
Inductive pip_step : config -> config -> Prop :=
| step_call c :
    pip_step c (Config (shared c) (frames c ++ [entry]))
| step_frame c i f ctl alloc_ok w' f' :
    frames c !! i = Some f ->
    thread_step ctl alloc_ok (shared c) f = Some (w', f') ->
    pip_step c (Config w' (<[i := f']> (frames c)))
| step_introspect c info :
    introspect (shared c) = Some info ->
    pip_step c c.

(** A history: consecutive configurations, each one step after the last. *)
Inductive history : list config -> Prop :=
| history_one c : history [c]
| history_cons c c' cs :
    pip_step c c' -> history (c' :: cs) -> history (c :: c' :: cs).

(* ===================================================================== *)
(** * The caller of the governor *)
(* ===================================================================== *)

(** Modelled from the spec: the code that probes the cache, counts and calls
    [RefreshDisableCaching] is outside the sources.  Section 4.4: after every
    DecisionCache probe the hit or miss counter is updated (a miss is followed
    by an insert when caching is enabled), and then the governor evaluates. *)
Definition count_hit (t : SandboxedPip) : SandboxedPip :=
  set_counters_ {| numCacheHits := N.succ (numCacheHits (counters_ t));
                   numCacheMisses := numCacheMisses (counters_ t) |} t.

Definition count_miss (t : SandboxedPip) : SandboxedPip :=
  set_counters_ {| numCacheHits := numCacheHits (counters_ t);
                   numCacheMisses := N.succ (numCacheMisses (counters_ t)) |} t.

(** Modelled from the spec: [insert(path, decision)] of the add-only cache. *)
Definition cache_insert (path : string) (p : ptr) (h : heap) : heap :=
  match p with
  | Some l =>
      match h !! l with
      | Some (Cell n (ObjTrie es)) =>
          if decide (path ∈ es) then h
          else <[l := Cell n (ObjTrie (path :: es))]> h
      | _ => h
      end
  | None => h
  end.

Definition probe_hit (w : world) : world :=
  World (count_hit (this w)) (objs w).

Definition probe_miss (path : string) (w : world) : world :=
  let t := count_miss (this w) in
  if disableCaching_ t then World t (objs w)
  else World t (cache_insert path (pathCache_ t) (objs w)).

(** Modelled from the spec: the tracker in use.  A probe updates a counter
    and enters the governor; the calls in flight and [introspect] interleave
    as in [pip_step]. *)
Inductive tracker_step : config -> config -> Prop :=
| resolve_hit c :
    tracker_step c (Config (probe_hit (shared c)) (frames c ++ [entry]))
| resolve_miss c path :
    tracker_step c (Config (probe_miss path (shared c)) (frames c ++ [entry]))
| resolve_frame c i f ctl alloc_ok w' f' :
    frames c !! i = Some f ->
    thread_step ctl alloc_ok (shared c) f = Some (w', f') ->
    tracker_step c (Config w' (<[i := f']> (frames c)))
| resolve_introspect c info :
    introspect (shared c) = Some info ->
    tracker_step c c.

(* ===================================================================== *)
(** * [CanonicalizedPath] *)
(* ===================================================================== *)

(** [PathType], as the switch of [GetPathStringWithoutTypePrefix] names its
    values. *)
Inductive PathType := Null | Win32 | Win32Nt | LocalDevice.

#[global] Instance PathType_eq_dec : EqDecision PathType.
Proof. solve_decision. Defined.

Abbreviation wchar_t := N (only parsing).
Abbreviation wstring := (list N) (only parsing).

(** A wide string literal. *)
Definition L (s : string) : wstring :=
  (λ a, N.of_nat (Ascii.nat_of_ascii a)) <$> String.list_ascii_of_string s.

(** The strings that [std::make_shared<std::wstring>] has allocated, by
    block.  A [std::shared_ptr<std::wstring>] is null or names a block; a
    block is never written after its creation. *)
Abbreviation store := (list (list N)) (only parsing).
Abbreviation shared_ptr := (option nat) (only parsing).

(** A [wchar_t const*]: null, or a position in the buffer of a block. *)
Inductive wchar_ptr := wnull | wat (block off : nat).

#[global] Instance wchar_ptr_eq_dec : EqDecision wchar_ptr.
Proof. solve_decision. Defined.

Record CanonicalizedPath := { Type_ : PathType; m_value : shared_ptr }.

#[global] Instance CanonicalizedPath_eq_dec : EqDecision CanonicalizedPath.
Proof. solve_decision. Defined.

(** Member functions run on the receiver and the string store; [None] is
    undefined behaviour. *)
Definition method (A : Type) : Type :=
  CanonicalizedPath * store -> option (A * (CanonicalizedPath * store)).

Definition ret {A} (a : A) : method A := λ s, Some (a, s).
Definition bind {A B} (m : method A) (k : A -> method B) : method B :=
  λ s, match m s with Some (a, s') => k a s' | None => None end.
Definition undefined {A} : method A := λ _, None.
Definition get_Type : method PathType := λ s, Some (Type_ (fst s), s).
Definition get_m_value : method shared_ptr := λ s, Some (m_value (fst s), s).
Definition get_store : method store := λ s, Some (snd s, s).
Definition set_Type (t : PathType) : method unit :=
  λ s, Some (tt, ({| Type_ := t; m_value := m_value (fst s) |}, snd s)).
Definition set_m_value (v : shared_ptr) : method unit :=
  λ s, Some (tt, ({| Type_ := Type_ (fst s); m_value := v |}, snd s)).

Declare Scope method_scope.
Delimit Scope method_scope with method.
Notation "x <- m ;; k" := (bind m (λ x, k))
  (at level 100, m at next level, right associativity) : method_scope.
Notation "m ;;; k" := (bind m (λ _, k))
  (at level 100, right associativity) : method_scope.
Local Open Scope method_scope.

(** [CanonicalizedPath()]. *)
Definition CanonicalizedPath_default : CanonicalizedPath :=
  {| Type_ := Null; m_value := None |}.

(** [CanonicalizedPath(type, value, valuePrefixLength)]: the new string holds
    the first [valuePrefixLength] characters of [value]. *)
Definition CanonicalizedPath_new (type : PathType) (value : wstring)
    (valuePrefixLength : nat) (st : store) : CanonicalizedPath * store :=
  ({| Type_ := type; m_value := Some (length st) |},
   st ++ [take valuePrefixLength value]).

(** [CanonicalizedPath(CanonicalizedPath&& other)], run on [other]: the
    members are initialised in their order of declaration, [Type] from
    [other.Type] and [m_value] by moving from [other.m_value], which leaves
    it null; the body then resets [other.Type]. *)
Definition CanonicalizedPath_move : method CanonicalizedPath :=
  type <- get_Type ;;
  value <- get_m_value ;;
  set_m_value None ;;;
  set_Type Null ;;;
  ret {| Type_ := type; m_value := value |}.

(** [IsNull() const]. *)
Definition IsNull : method bool :=
  type <- get_Type ;; ret (bool_decide (type = Null)).

(** [Length() const]. *)
Definition Length : method nat :=
  value <- get_m_value ;;
  st <- get_store ;;
  match value with
  | Some b => match st !! b with Some s => ret (length s) | None => undefined end
  | None => ret 0%nat
  end.

(** [GetPathString() const]: [c_str()] of the string, or nullptr. *)
Definition GetPathString : method wchar_ptr :=
  value <- get_m_value ;;
  match value with
  | Some b => ret (wat b 0)
  | None => ret wnull
  end.

(** [p + n] on a [wchar_t const*].  The buffer of a string of length [k] has
    [k + 1] elements, the last one the terminator; a pointer may be formed up
    to one past the buffer, and no arithmetic is defined on nullptr. *)
Definition ptr_add (n : nat) (p : wchar_ptr) : method wchar_ptr :=
  st <- get_store ;;
  match p with
  | wnull => undefined
  | wat b off =>
      match st !! b with
      | Some s =>
          if decide (off + n ≤ S (length s))%nat then ret (wat b (off + n))
          else undefined
      | None => undefined
      end
  end.

(** [GetPathStringWithoutTypePrefix() const]. *)
Definition GetPathStringWithoutTypePrefix : method wchar_ptr :=
  type <- get_Type ;;
  match type with
  | Null => ret wnull
  | Win32 => GetPathString
  | Win32Nt | LocalDevice => p <- GetPathString ;; ptr_add 4 p
  end.

(** The string a [wchar_t const*] designates: the characters from its
    position up to the terminator.  A pointer that is null or not inside the
    buffer designates none. *)
Definition c_str_at (st : store) (p : wchar_ptr) : option wstring :=
  match p with
  | wnull => None
  | wat b off =>
      s ← st !! b;
      if decide (off ≤ length s)%nat then Some (drop off s) else None
  end.


(* ===================================================================== *)
(** * Properties of the governor *)
(* ===================================================================== *)

Local Close Scope method_scope.

(** ** The two readings of [RefreshDisableCaching] agree *)

Lemma OSCompareAndSwapPtr_same (old new : ptr) :
  OSCompareAndSwapPtr old new old = (true, new).
Proof. unfold OSCompareAndSwapPtr. by rewrite decide_True. Qed.

Lemma OSCompareAndSwapPtr_other (old new target : ptr) :
  target ≠ old -> OSCompareAndSwapPtr old new target = (false, target).
Proof. intros H. unfold OSCompareAndSwapPtr. by rewrite decide_False. Qed.

(** Unfolding one statement of a run. *)
Lemma run_thread_step fuel ctl alloc_ok w f w' f' :
  returned f = None ->
  thread_step ctl alloc_ok w f = Some (w', f') ->
  run_thread (S fuel) ctl alloc_ok w f
  = '(w'', r, ls) ← run_thread fuel ctl alloc_ok w' f';
    Some (w'', r, at_ f :: ls).
Proof. intros Hat Hs. cbn [run_thread]. by rewrite Hat, Hs. Qed.

Lemma run_thread_stuck fuel ctl alloc_ok w f :
  returned f = None ->
  thread_step ctl alloc_ok w f = None ->
  run_thread (S fuel) ctl alloc_ok w f = None.
Proof. intros Hat Hs. cbn [run_thread]. by rewrite Hat, Hs. Qed.

Lemma run_thread_returned fuel ctl alloc_ok w f r :
  returned f = Some r ->
  run_thread fuel ctl alloc_ok w f = Some (w, r, []).
Proof. intros Hat. destruct fuel; cbn [run_thread]; by rewrite Hat. Qed.

(** A call that runs alone goes through the frame steps to the result of
    [RefreshDisableCaching]. *)
Lemma run_thread_RefreshDisableCaching ctl alloc_ok w :
  (λ x, (x.1.1, x.1.2)) <$> run_thread call_fuel ctl alloc_ok w entry
  = RefreshDisableCaching ctl alloc_ok w.
Proof.
  destruct w as [t h].
  unfold RefreshDisableCaching, ShouldDisableCaching, call_fuel, entry.
  cbn [this objs].
  destruct (disableCaching_ t) eqn:Hd; cbn [negb].
  { erewrite run_thread_step;
      [ | reflexivity | unfold thread_step; cbn; rewrite Hd; reflexivity ].
    erewrite run_thread_step;
      [ | reflexivity | unfold thread_step; cbn; reflexivity ].
    erewrite run_thread_returned by reflexivity.
    cbn. by rewrite Hd. }
  erewrite run_thread_step;
    [ | reflexivity | unfold thread_step; cbn; rewrite Hd; reflexivity ].
  destruct (trie_at h (pathCache_ t)) as [es|] eqn:Ht; cbn [mbind option_bind].
  2:{ erewrite run_thread_stuck;
        [ done | reflexivity | unfold thread_step; cbn; by rewrite Ht ]. }
  destruct (getCount es >? _) eqn:Hc.
  2:{ erewrite run_thread_step;
        [ | reflexivity
          | unfold thread_step; cbn; rewrite Ht; cbn; rewrite Hc; reflexivity ].
      erewrite run_thread_step;
        [ | reflexivity | unfold thread_step; cbn; reflexivity ].
      erewrite run_thread_returned by reflexivity.
      cbn. by rewrite Hd. }
  erewrite run_thread_step;
    [ | reflexivity
      | unfold thread_step; cbn; rewrite Ht; cbn; rewrite Hc; reflexivity ].
  destruct (PCT _ _) as [pct|] eqn:Hp; cbn [mbind option_bind].
  2:{ erewrite run_thread_stuck;
        [ done | reflexivity | unfold thread_step; cbn; by rewrite Hp ]. }
  destruct (pct <? _) eqn:Hm.
  2:{ erewrite run_thread_step;
        [ | reflexivity
          | unfold thread_step; cbn; rewrite Hp; cbn; rewrite Hm; reflexivity ].
      erewrite run_thread_step;
        [ | reflexivity | unfold thread_step; cbn; reflexivity ].
      erewrite run_thread_returned by reflexivity.
      cbn. by rewrite Hd. }
  erewrite run_thread_step;
    [ | reflexivity
      | unfold thread_step; cbn; rewrite Hp; cbn; rewrite Hm; reflexivity ].
  do 2 (erewrite run_thread_step;
    [ | reflexivity | unfold thread_step; cbn; reflexivity ]).
  cbn [set_disableCaching_ pathCache_].
  destruct alloc_ok; cbn [createPathTrie alloc];
    rewrite OSCompareAndSwapPtr_same.
  - erewrite run_thread_step;
      [ | reflexivity | unfold thread_step; cbn; reflexivity ].
    erewrite run_thread_step;
      [ | reflexivity
        | unfold thread_step; cbn; rewrite OSCompareAndSwapPtr_same;
          reflexivity ].
    do 2 (erewrite run_thread_step;
      [ | reflexivity | unfold thread_step; cbn; reflexivity ]).
    erewrite run_thread_returned by reflexivity. reflexivity.
  - erewrite run_thread_step;
      [ | reflexivity | unfold thread_step; cbn; reflexivity ].
    erewrite run_thread_step;
      [ | reflexivity
        | unfold thread_step; cbn; rewrite OSCompareAndSwapPtr_same;
          reflexivity ].
    do 2 (erewrite run_thread_step;
      [ | reflexivity | unfold thread_step; cbn; reflexivity ]).
    erewrite run_thread_returned by reflexivity. reflexivity.
Qed.

(** ** A disabled tracker *)

(** C5: on a tracker whose [disableCaching_] is already true,
    [RefreshDisableCaching] returns true and leaves the tracker and the heap
    as they are; the call executes line 105 and line 127 only, so it evaluates
    no threshold (lines 136, 138) and attempts no swap (lines 112, 113). *)
Theorem RefreshDisableCaching_when_disabled ctl alloc_ok (w : world) :
  disableCaching_ (this w) = true ->
  RefreshDisableCaching ctl alloc_ok w = Some (w, true) /\
  run_thread call_fuel ctl alloc_ok w entry = Some (w, true, [L105; L127]).
Proof.
  intros Hd. split.
  - unfold RefreshDisableCaching. by rewrite Hd.
  - unfold call_fuel.
    erewrite run_thread_step;
      [ | reflexivity | unfold thread_step; cbn; rewrite Hd; reflexivity ].
    erewrite run_thread_step;
      [ | reflexivity | unfold thread_step; cbn; reflexivity ].
    erewrite run_thread_returned by reflexivity.
    cbn. by rewrite Hd.
Qed.

(** ** When the governor disables caching *)

(** C1, as the code has it: on a tracker with caching enabled whose active
    cache is live, an evaluation that is defined (the count is not above the
    minimum, or the cast in [PCT] is defined) returns, and it disables caching
    exactly when the entry count is above [g_bxl_disable_cache_min_entries]
    and [PCT] of the hit and miss counters, the truncated [double] value, is
    below [g_bxl_disable_cache_max_hit_pct]. *)
Theorem RefreshDisableCaching_disables_iff ctl alloc_ok (w : world) entries :
  disableCaching_ (this w) = false ->
  trie_at (objs w) (pathCache_ (this w)) = Some entries ->
  (getCount entries <= g_bxl_disable_cache_min_entries ctl \/
   is_Some (PCT (Z.of_N (numCacheHits (counters_ (this w))))
                (Z.of_N (numCacheMisses (counters_ (this w)))))) ->
  exists w',
    RefreshDisableCaching ctl alloc_ok w
      = Some (w', disableCaching_ (this w')) /\
    (disableCaching_ (this w') = true <->
     g_bxl_disable_cache_min_entries ctl < getCount entries /\
     exists pct,
       PCT (Z.of_N (numCacheHits (counters_ (this w))))
           (Z.of_N (numCacheMisses (counters_ (this w)))) = Some pct /\
       pct < g_bxl_disable_cache_max_hit_pct ctl).
Proof.
  intros Hd Ht Hdef.
  unfold RefreshDisableCaching, ShouldDisableCaching.
  rewrite Hd, Ht. cbn.
  destruct (Z.gtb_spec (getCount entries) (g_bxl_disable_cache_min_entries ctl))
    as [Hgt|Hle]; cbn.
  - destruct Hdef as [Hle|[pct Hp]]; [lia|].
    rewrite Hp. cbn.
    destruct (Z.ltb_spec pct (g_bxl_disable_cache_max_hit_pct ctl)) as [Hlt|Hge].
    + destruct (createPathTrie alloc_ok (objs w)) as [h p] eqn:Hc.
      rewrite OSCompareAndSwapPtr_same.
      exists (World (set_oldPathCache_ (pathCache_ (this w))
                       (set_pathCache_ p (set_disableCaching_ true (this w))))
                    h).
      split; [reflexivity|]. cbn.
      split; [|done]. intros _. split; [lia|]. by exists pct.
    + exists w. rewrite Hd. split; [done|].
      split; [done|]. intros [_ (pct' & Hp' & Hlt)].
      assert (pct' = pct) as -> by congruence. lia.
  - exists w. rewrite Hd. split; [done|].
    split; [done|]. intros [Hgt _]. lia.
Qed.

(** A tracker with three probes behind it, two hits and one miss, and one
    entry in its cache; the minimum is 0 entries and the maximum hit
    percentage is 67. *)
Definition two_hits_one_miss : world :=
  World
    {| clientPid_ := 1; payload_ := None; processId_ := 2;
       processTreeCount_ := 1;
       counters_ := {| numCacheHits := 2; numCacheMisses := 1 |};
       disableCaching_ := false; cacheCallCnt_ := 0;
       fam_ := {| fam_error := None; fam_pipId := 0 |};
       oldPathCache_ := None; pathCache_ := Some 0%nat;
       lastPathLookup_ := None |}
    [Cell 1 (ObjTrie ["/usr/include/stdio.h"%string])].

Definition min0_max67 : SysCtl :=
  {| g_bxl_enable_counters := 1; g_bxl_verbose_logging := 0;
     g_bxl_enable_cache := 1; g_bxl_enable_light_trie := 0;
     g_bxl_disable_cache_min_entries := 0;
     g_bxl_disable_cache_max_hit_pct := 67 |}.

(** The hit percentage in the spec's words,
    [round(hits / (hits + misses) * 100)]: the nearest integer to the exact
    quotient, a half rounding up. *)
Definition hitPercentage_rounded (hits misses : Z) : Z :=
  (2 * (100 * hits) + (hits + misses)) / (2 * (hits + misses)).

Example hitPercentage_rounded_2_1 : hitPercentage_rounded 2 1 = 67.
Proof. reflexivity. Qed.

Example PCT_2_1 : PCT 2 1 = Some 66.
Proof. vm_compute. reflexivity. Qed.

(** The quotient 29/100 is not a [double]; the nearest one times 100 is below
    29, and the cast gives 28. *)
Example PCT_29_71 : PCT 29 71 = Some 28.
Proof. vm_compute. reflexivity. Qed.

Example PCT_0_0 : PCT 0 0 = None.
Proof. vm_compute. reflexivity. Qed.

(** C1, as the spec words it, fails: with 2 hits and 1 miss the rounded
    percentage is 67, which is not below the maximum 67, yet the code, whose
    [PCT] is 66, disables caching. *)
Lemma rounded_percentage_counterexample :
  disableCaching_ (this two_hits_one_miss) = false /\
  (exists w',
     RefreshDisableCaching min0_max67 true two_hits_one_miss = Some (w', true)
     /\ disableCaching_ (this w') = true) /\
  ~ (g_bxl_disable_cache_min_entries min0_max67
       < getCount ["/usr/include/stdio.h"%string] /\
     hitPercentage_rounded 2 1 < g_bxl_disable_cache_max_hit_pct min0_max67).
Proof.
  split; [reflexivity|]. split.
  - eexists. split; [vm_compute; reflexivity|reflexivity].
  - intros [_ H]. vm_compute in H. discriminate.
Qed.

Lemma RefreshDisableCaching_disables_iff_witness :
  disableCaching_ (this two_hits_one_miss) = false /\
  exists w',
    RefreshDisableCaching min0_max67 true two_hits_one_miss
      = Some (w', disableCaching_ (this w')) /\
    (disableCaching_ (this w') = true <->
     g_bxl_disable_cache_min_entries min0_max67
       < getCount ["/usr/include/stdio.h"%string] /\
     exists pct,
       PCT (Z.of_N (numCacheHits (counters_ (this two_hits_one_miss))))
           (Z.of_N (numCacheMisses (counters_ (this two_hits_one_miss))))
         = Some pct /\
       pct < g_bxl_disable_cache_max_hit_pct min0_max67).
Proof.
  split; [reflexivity|].
  apply (RefreshDisableCaching_disables_iff min0_max67 true two_hits_one_miss
           ["/usr/include/stdio.h"%string]).
  - reflexivity.
  - reflexivity.
  - right. exists 66. vm_compute. reflexivity.
Defined.

(** ** The replacement cache *)

(** When the allocation succeeds, a disabling call installs a new, empty
    cache at an address that was not in use, and keeps the outgoing one in
    [oldPathCache_]. *)
Lemma RefreshDisableCaching_installs_fresh_cache ctl (w w' : world) :
  disableCaching_ (this w) = false ->
  RefreshDisableCaching ctl true w = Some (w', true) ->
  pathCache_ (this w') = Some (length (objs w)) /\
  objs w !! length (objs w) = None /\
  trie_at (objs w') (pathCache_ (this w')) = Some [] /\
  oldPathCache_ (this w') = pathCache_ (this w).
Proof.
  intros Hd. unfold RefreshDisableCaching. rewrite Hd. cbn.
  destruct (ShouldDisableCaching ctl w) as [[]|]; cbn; [|congruence|done].
  rewrite OSCompareAndSwapPtr_same. intros [= <-]. cbn.
  split; [done|]. split; [by apply lookup_ge_None_2|]. split; [|done].
  unfold trie_at, deref. cbn.
  rewrite lookup_app_r, Nat.sub_diag by done. done.
Qed.

(** C3 fails when [Trie::createPathTrie] returns nullptr: the call does not
    check [newCache], the swap succeeds, and the active-cache handle is null
    afterwards. *)
Theorem RefreshDisableCaching_failed_allocation_installs_null :
  exists w',
    RefreshDisableCaching min0_max67 false two_hits_one_miss = Some (w', true)
    /\ pathCache_ (this w') = None
    /\ oldPathCache_ (this w') = Some 0%nat.
Proof. eexists. split; [vm_compute; reflexivity|]. split; reflexivity. Qed.

(** ** The compare-and-swap and what follows it *)

Lemma release_lookup_ne (l l' : addr) (h : heap) :
  l ≠ l' -> release l h !! l' = h !! l'.
Proof. intros Hne. unfold release. by apply list_lookup_alter_ne. Qed.

Lemma release_lookup_eq (l : addr) (h : heap) c :
  h !! l = Some c ->
  release l h !! l = Some (Cell (pred (retainCount c)) (obj c)).
Proof.
  intros Hl. unfold release. by rewrite list_lookup_alter_eq, Hl.
Qed.

Lemma set_pathCache__same (t : SandboxedPip) :
  set_pathCache_ (pathCache_ t) t = t.
Proof. by destruct t. Qed.

(** C4: a call at the compare-and-swap of line 113.  If the active-cache
    handle still is [oldCache], the swap installs [newCache], the heap is
    untouched, and the next step of the call (line 117), whatever happened in
    between, stores [oldCache] in [oldPathCache_] and again touches no heap
    cell: the outgoing cache is kept, not released.  If the handle has
    changed, the swap changes nothing, and the next step of the call (line
    122) releases [newCache] and nothing else: the tracker is unchanged and
    every other heap cell is as it was. *)
Theorem compare_and_swap_outcomes ctl alloc_ok (w : world) (f : frame) :
  at_ f = L113 ->
  (pathCache_ (this w) = oldCache f ->
   exists w1 f1,
     thread_step ctl alloc_ok w f = Some (w1, f1) /\
     at_ f1 = L117 /\
     pathCache_ (this w1) = newCache f /\
     oldPathCache_ (this w1) = oldPathCache_ (this w) /\
     objs w1 = objs w /\
     forall ctl' alloc_ok' (w2 : world), exists w3 f3,
       thread_step ctl' alloc_ok' w2 f1 = Some (w3, f3) /\
       at_ f3 = L127 /\
       oldPathCache_ (this w3) = oldCache f /\
       pathCache_ (this w3) = pathCache_ (this w2) /\
       objs w3 = objs w2) /\
  (pathCache_ (this w) ≠ oldCache f ->
   exists f1,
     thread_step ctl alloc_ok w f = Some (w, f1) /\
     at_ f1 = L122 /\
     forall ctl' alloc_ok' (w2 : world), exists h3 f3,
       thread_step ctl' alloc_ok' w2 f1 = Some (World (this w2) h3, f3) /\
       at_ f3 = L127 /\
       h3 = (OSSafeReleaseNULL (newCache f) (objs w2)).1 /\
       (forall l, newCache f ≠ Some l -> h3 !! l = objs w2 !! l) /\
       (forall l c, newCache f = Some l -> objs w2 !! l = Some c ->
          h3 !! l = Some (Cell (pred (retainCount c)) (obj c)))).
Proof.
  intros Hat. destruct w as [t h], f as [l old new]. cbn in *. subst l.
  split.
  - intros Heq. subst old.
    unfold thread_step. cbn [at_ oldCache newCache this objs].
    rewrite OSCompareAndSwapPtr_same.
    eexists _, _. split; [reflexivity|]. cbn.
    repeat split; try done.
    intros ctl' a' [t2 h2]. eexists _, _. split; [reflexivity|]. done.
  - intros Hne. unfold thread_step. cbn [at_ oldCache newCache this objs].
    rewrite OSCompareAndSwapPtr_other by done.
    rewrite set_pathCache__same.
    eexists. split; [reflexivity|]. cbn. split; [done|].
    intros ctl' a' [t2 h2]. unfold thread_step. cbn.
    destruct new as [n|]; cbn.
    + eexists _, _. split; [reflexivity|]. cbn.
      split; [done|]. split; [done|]. split.
      * intros l Hl. apply release_lookup_ne. congruence.
      * intros l c [= <-] Hc. by apply release_lookup_eq.
    + eexists _, _. split; [reflexivity|]. cbn.
      split; [done|]. split; [done|]. split; [done|]. intros l c [=].
Qed.

(** A call whose swap is about to lose: another call has already replaced
    the cache at address 0 by the one at address 1, and this call holds its
    own replacement at address 2. *)
Definition after_a_swap : world :=
  World
    {| clientPid_ := 1; payload_ := None; processId_ := 2;
       processTreeCount_ := 1;
       counters_ := {| numCacheHits := 0; numCacheMisses := 3 |};
       disableCaching_ := true; cacheCallCnt_ := 0;
       fam_ := {| fam_error := None; fam_pipId := 0 |};
       oldPathCache_ := Some 0%nat; pathCache_ := Some 1%nat;
       lastPathLookup_ := None |}
    [Cell 1 (ObjTrie ["/a"%string; "/b"%string]);
     Cell 1 (ObjTrie []); Cell 1 (ObjTrie [])].

Definition late_frame : frame := Frame L113 (Some 0%nat) (Some 2%nat).

Lemma compare_and_swap_outcomes_witness :
  at_ late_frame = L113 /\
  pathCache_ (this after_a_swap) ≠ oldCache late_frame /\
  exists f1,
    thread_step min0_max67 true after_a_swap late_frame
      = Some (after_a_swap, f1) /\
    at_ f1 = L122.
Proof.
  split; [reflexivity|]. split; [discriminate|].
  destruct (compare_and_swap_outcomes min0_max67 true after_a_swap late_frame
              eq_refl) as [_ H].
  destruct H as (f1 & H1 & H2 & _); [discriminate|].
  exists f1. split; assumption.
Defined.

(** ** The flag is one-way *)

(** No statement of a call clears the flag. *)
Lemma thread_step_keeps_disabled ctl alloc_ok (w w' : world) (f f' : frame) :
  thread_step ctl alloc_ok w f = Some (w', f') ->
  disableCaching_ (this w) = true ->
  disableCaching_ (this w') = true.
Proof.
  unfold thread_step. intros Hs Hd.
  destruct (at_ f); simplify_option_eq;
    repeat case_match; simplify_eq; cbn; done.
Qed.

Lemma pip_step_keeps_disabled (c c' : config) :
  pip_step c c' -> caching_disabled c = true -> caching_disabled c' = true.
Proof.
  unfold caching_disabled.
  destruct 1 as [c|c i f ctl a w' f' _ Hs|c info _]; cbn; [done| |done].
  by eapply thread_step_keeps_disabled.
Qed.

(** C2: along every history of a constructed tracker (calls of
    [RefreshDisableCaching] entering and interleaving step by step, and
    [introspect]), the values of [disableCaching_] are some number of
    [false] followed only by [true]: the flag goes from false to true at
    most once and never from true to false. *)
Theorem disableCaching_is_one_way (cs : list config) :
  history cs ->
  exists k : nat,
    caching_disabled <$> cs
    = replicate k false ++ replicate (length cs - k) true.
Proof.
  induction 1 as [c|c c' cs Hstep _ [k IH]].
  - destruct (caching_disabled c) eqn:Hc.
    + exists 0%nat. cbn. by rewrite Hc.
    + exists 1%nat. cbn. by rewrite Hc.
  - destruct (caching_disabled c) eqn:Hc.
    + exists 0%nat.
      apply pip_step_keeps_disabled in Hstep; [|done].
      destruct k as [|k]; [|cbn in IH; congruence].
      rewrite fmap_cons, Hc, IH. cbn [replicate app].
      rewrite !Nat.sub_0_r. done.
    + exists (S k).
      rewrite fmap_cons, Hc, IH. cbn [replicate app length Nat.sub]. done.
Qed.

(** Two calls race on the tracker of [two_hits_one_miss]: the first runs up
    to its write of the flag. *)
Definition racing_history : list config :=
  let c0 := Config two_hits_one_miss [] in
  let c1 := Config two_hits_one_miss [entry] in
  let c2 := Config two_hits_one_miss [Frame L136 None None] in
  let c3 := Config two_hits_one_miss [Frame L138 None None] in
  let c4 := Config two_hits_one_miss [Frame L110 None None] in
  let c5 :=
    Config (World (set_disableCaching_ true (this two_hits_one_miss))
                  (objs two_hits_one_miss)) [Frame L111 None None] in
  [c0; c1; c2; c3; c4; c5].

Lemma racing_history_is_history : history racing_history.
Proof.
  unfold racing_history.
  repeat first
    [ apply history_one
    | apply history_cons ].
  - apply (step_call (Config two_hits_one_miss [])).
  - by apply (step_frame (Config two_hits_one_miss [entry]) 0 entry
                min0_max67 true).
  - by apply (step_frame (Config two_hits_one_miss [Frame L136 None None]) 0
                (Frame L136 None None) min0_max67 true).
  - by apply (step_frame (Config two_hits_one_miss [Frame L138 None None]) 0
                (Frame L138 None None) min0_max67 true).
  - by apply (step_frame (Config two_hits_one_miss [Frame L110 None None]) 0
                (Frame L110 None None) min0_max67 true).
Defined.

Lemma disableCaching_is_one_way_witness :
  history racing_history /\
  exists k : nat,
    caching_disabled <$> racing_history
    = replicate k false ++ replicate (length racing_history - k) true.
Proof.
  split.
  - exact racing_history_is_history.
  - exact (disableCaching_is_one_way racing_history racing_history_is_history).
Defined.

(** ** Construction *)

Lemma buffer_at_inv (h : heap) (p : ptr) bytes :
  buffer_at h p = Some bytes ->
  exists l n, p = Some l /\ h !! l = Some (Cell (S n) (ObjBuffer bytes)).
Proof.
  unfold buffer_at, deref. intros H.
  destruct p as [l|]; [|done]. cbn in H.
  destruct (h !! l) as [[n o]|] eqn:Hl; [|done]. cbn in H.
  case_decide; [|done]. cbn in H. destruct o; try done.
  injection H as ->.
  destruct n; [lia|]. by exists l, n.
Qed.

Lemma length_retain l (h : heap) : length (retain l h) = length h.
Proof. apply length_alter. Qed.

Lemma length_release l (h : heap) : length (release l h) = length h.
Proof. apply length_alter. Qed.

Lemma retain_lookup_eq (l : addr) (h : heap) c :
  h !! l = Some c ->
  retain l h !! l = Some (Cell (S (retainCount c)) (obj c)).
Proof. intros Hl. unfold retain. by rewrite list_lookup_alter_eq, Hl. Qed.

Lemma retain_lookup_ne (l l' : addr) (h : heap) :
  l ≠ l' -> retain l h !! l' = h !! l'.
Proof. intros Hne. unfold retain. by apply list_lookup_alter_ne. Qed.

(** The members that [init] sets before it parses the manifest. *)
Definition scalars_set (ctl : SysCtl) (clientPid processPid : Z)
    (payload : ptr) (t : SandboxedPip) : SandboxedPip :=
  set_cacheCallCnt_ 0
    (set_disableCaching_ (g_bxl_enable_cache ctl =? 0)
       (set_counters_ {| numCacheHits := 0; numCacheMisses := 0 |}
          (set_processTreeCount_ 1
             (set_processId_ processPid
                (set_payload_ payload (set_clientPid_ clientPid t)))))).

(** [init] on a live payload, outcome by outcome. *)
Lemma init_eval fam_init ctl o clientPid processPid l n bytes t (h : heap) :
  h !! l = Some (Cell (S n) (ObjBuffer bytes)) ->
  init fam_init ctl o clientPid processPid (Some l) t h
  = Some
      (if negb (super_init_ok o) then (t, h, false)
       else
         let t0 :=
           set_fam_ (fam_init bytes)
             (scalars_set ctl clientPid processPid (Some l) t) in
         let h1 := retain l h in
         if HasErrors (fam_init bytes) then (t0, h1, false)
         else if negb (trie_ok o)
         then (set_pathCache_ None (set_oldPathCache_ None t0), h1, false)
         else
           let t1 :=
             set_pathCache_ (Some (length h)) (set_oldPathCache_ None t0) in
           let h2 := h1 ++ [Cell 1 (ObjTrie [])] in
           if negb (table_ok o)
           then (set_lastPathLookup_ None t1, h2, false)
           else (set_lastPathLookup_ (Some (S (length h))) t1,
                 h2 ++ [Cell 1 (ObjThreadLocal [])], true)).
Proof.
  intros Hl. unfold init, scalars_set.
  destruct (super_init_ok o); cbn [negb]; [|done].
  cbn [payload_ set_payload_ set_clientPid_ set_processId_
       set_processTreeCount_ set_counters_ set_disableCaching_
       set_cacheCallCnt_].
  unfold deref at 1. cbn [mbind option_bind]. rewrite Hl.
  cbn [mbind option_bind retainCount].
  rewrite decide_True by lia. cbn [mbind option_bind].
  unfold buffer_at, deref. cbn [mbind option_bind].
  rewrite (retain_lookup_eq _ _ _ Hl). cbn [mbind option_bind retainCount obj].
  rewrite decide_True by lia. cbn [mbind option_bind].
  cbn [fam_ set_fam_].
  destruct (HasErrors (fam_init bytes)); [done|].
  destruct (trie_ok o); cbn [negb createPathTrie alloc].
  2:{ rewrite decide_True by done. done. }
  cbn [pathCache_ set_pathCache_].
  rewrite decide_False by done.
  rewrite length_retain.
  destruct (table_ok o); cbn [negb ThreadLocal_create alloc].
  2:{ rewrite decide_True by done. done. }
  cbn [lastPathLookup_ set_lastPathLookup_].
  rewrite decide_False by done.
  rewrite length_app, length_retain. cbn [length].
  by rewrite Nat.add_1_r.
Qed.

(** Heap updates below and above the end of an older heap. *)
Lemma retain_app_l (l : addr) (h s : heap) :
  (l < length h)%nat -> retain l (h ++ s) = retain l h ++ s.
Proof. apply alter_app_l. Qed.

Lemma release_app_l (l : addr) (h s : heap) :
  (l < length h)%nat -> release l (h ++ s) = release l h ++ s.
Proof. apply alter_app_l. Qed.

Lemma release_app_r (k : nat) (h s : heap) :
  release (length h + k) (h ++ s) = h ++ release k s.
Proof. apply alter_app_r. Qed.

Lemma release_retain (l : addr) (h : heap) :
  release l (retain l h) = h.
Proof.
  unfold release, retain. rewrite list_alter_alter_eq.
  apply list_alter_id. by intros [n o].
Qed.

(** Releasing the only reference to a tracker runs [free] and kills the
    cell. *)
Lemma release_pip_last (n : nat) (h s : heap) (t : SandboxedPip) :
  length h = n ->
  release_pip n (h ++ Cell 1 (ObjPip t) :: s)
  = <[n := Cell 0 (ObjPip (free t (h ++ Cell 1 (ObjPip t) :: s)).1)]>
      (free t (h ++ Cell 1 (ObjPip t) :: s)).2.
Proof.
  intros <-. unfold release_pip.
  rewrite lookup_app_r, Nat.sub_diag by done. cbn [lookup list_lookup].
  rewrite decide_True by done. by destruct (free _ _).
Qed.

Lemma insert_new_cell (n : nat) (h s : heap) (c c' : cell) :
  length h = n -> <[n := c']> (h ++ c :: s) = h ++ c' :: s.
Proof.
  intros <-. rewrite <- (Nat.add_0_r (length h)). by rewrite insert_app_r.
Qed.

(** C6: when the manifest has a parse error, or the allocation of the cache
    or of the lookup table fails, [create] returns nullptr and the heap is
    the heap before the call followed by dead cells only: every cell that
    existed is as it was (the retain of the payload is balanced by a
    release), and what the call allocated, the tracker itself and the cache
    if one was created, has been freed. *)
Theorem create_failure_leaves_nothing
    fam_init ctl o clientPid processPid payload (h : heap) bytes :
  buffer_at h payload = Some bytes ->
  HasErrors (fam_init bytes) = true \/ trie_ok o = false \/
    table_ok o = false ->
  exists dead : list cell,
    create fam_init ctl o clientPid processPid payload h
      = Some (h ++ dead, None) /\
    Forall (λ c, retainCount c = 0%nat) dead.
Proof.
  intros Hb Hfail.
  destruct (buffer_at_inv _ _ _ Hb) as (l & n & -> & Hl).
  assert (l < length h)%nat as Hlt by (by eapply lookup_lt_Some).
  unfold create.
  destruct (new_ok o); cbn [negb].
  2:{ exists []. by rewrite app_nil_r. }
  cbn [alloc].
  rewrite (init_eval fam_init ctl o clientPid processPid l n bytes zeroed
             (h ++ [Cell 1 (ObjPip zeroed)]))
    by (by apply lookup_app_l_Some).
  cbn [mbind option_bind].
  rewrite retain_app_l by done.
  destruct (super_init_ok o); cbn [negb].
  2:{ rewrite insert_new_cell, release_pip_last by done.
    unfold free, scalars_set.
    cbn [payload_ lastPathLookup_ pathCache_ oldPathCache_ set_payload_
         set_lastPathLookup_ set_pathCache_ set_oldPathCache_ set_fam_
         set_cacheCallCnt_ set_disableCaching_ set_counters_
         set_processTreeCount_ set_processId_ set_clientPid_
         OSSafeReleaseNULL fst snd zeroed].
      rewrite insert_new_cell by done.
      eexists [_]. split; [reflexivity|]. by repeat constructor. }
  destruct (HasErrors (fam_init bytes)) eqn:He; cbn [negb].
  { rewrite insert_new_cell, release_pip_last by apply length_retain.
    unfold free, scalars_set.
    cbn [payload_ lastPathLookup_ pathCache_ oldPathCache_ set_payload_
         set_lastPathLookup_ set_pathCache_ set_oldPathCache_ set_fam_
         set_cacheCallCnt_ set_disableCaching_ set_counters_
         set_processTreeCount_ set_processId_ set_clientPid_
         OSSafeReleaseNULL fst snd zeroed].
    rewrite release_app_l, release_retain by (by rewrite length_retain).
    rewrite insert_new_cell by done.
    eexists [_]. split; [reflexivity|]. by repeat constructor. }
  destruct (trie_ok o) eqn:Htrie; cbn [negb].
  2:{ rewrite insert_new_cell, release_pip_last by apply length_retain.
    unfold free, scalars_set.
    cbn [payload_ lastPathLookup_ pathCache_ oldPathCache_ set_payload_
         set_lastPathLookup_ set_pathCache_ set_oldPathCache_ set_fam_
         set_cacheCallCnt_ set_disableCaching_ set_counters_
         set_processTreeCount_ set_processId_ set_clientPid_
         OSSafeReleaseNULL fst snd zeroed].
      rewrite release_app_l, release_retain by (by rewrite length_retain).
      rewrite insert_new_cell by done.
      eexists [_]. split; [reflexivity|]. by repeat constructor. }
  destruct (table_ok o) eqn:Htable; cbn [negb].
  { destruct Hfail as [?|[?|?]]; congruence. }
  rewrite <- app_assoc. cbn [app].
  rewrite insert_new_cell, release_pip_last by apply length_retain.
  rewrite length_app. cbn [length].
  unfold free, scalars_set.
  cbn [payload_ lastPathLookup_ pathCache_ oldPathCache_ set_payload_
       set_lastPathLookup_ set_pathCache_ set_oldPathCache_ set_fam_
       set_cacheCallCnt_ set_disableCaching_ set_counters_
       set_processTreeCount_ set_processId_ set_clientPid_
       OSSafeReleaseNULL fst snd].
  rewrite release_app_l, release_retain by (by rewrite length_retain).
  rewrite release_app_r. cbn [release alter list_alter].
  rewrite insert_new_cell by done.
  eexists [_; _]. split; [reflexivity|]. by repeat constructor.
Qed.

(** A construction that succeeds had a live payload buffer. *)
Lemma init_true_inv fam_init ctl o clientPid processPid payload t t'
    (h h' : heap) :
  init fam_init ctl o clientPid processPid payload t h = Some (t', h', true) ->
  exists l n bytes,
    payload = Some l /\ h !! l = Some (Cell (S n) (ObjBuffer bytes)).
Proof.
  unfold init. destruct (super_init_ok o); cbn [negb]; [|discriminate].
  cbn [payload_ set_payload_ set_clientPid_ set_processId_
       set_processTreeCount_ set_counters_ set_disableCaching_
       set_cacheCallCnt_].
  destruct payload as [l|]; [|discriminate].
  unfold deref at 1. cbn [mbind option_bind].
  destruct (h !! l) as [[rc ob]|] eqn:Hl; [|discriminate].
  cbn [mbind option_bind retainCount].
  case_decide as Hrc; [|discriminate]. cbn [mbind option_bind].
  unfold buffer_at, deref. cbn [mbind option_bind].
  rewrite (retain_lookup_eq _ _ _ Hl). cbn [mbind option_bind retainCount obj].
  rewrite decide_True by lia. cbn [mbind option_bind].
  destruct ob as [bytes| | |]; try discriminate.
  intros _. destruct rc as [|n]; [lia|]. by exists l, n, bytes.
Qed.

(** C7: after a construction that succeeds, the tracker designated by the
    returned pointer has an empty live cache, an empty live lookup table,
    hit and miss counters 0, [disableCaching_] equal to
    [!g_bxl_enable_cache], a null [oldPathCache_] and a tree count of 1. *)
Theorem create_success_state
    fam_init ctl o clientPid processPid payload (h h' : heap) (p : addr) :
  create fam_init ctl o clientPid processPid payload h = Some (h', Some p) ->
  exists t,
    pip_at h' (Some p) = Some t /\
    trie_at h' (pathCache_ t) = Some [] /\
    table_at h' (lastPathLookup_ t) = Some [] /\
    numCacheHits (counters_ t) = 0%N /\
    numCacheMisses (counters_ t) = 0%N /\
    disableCaching_ t = (g_bxl_enable_cache ctl =? 0) /\
    oldPathCache_ t = None /\
    processTreeCount_ t = 1.
Proof.
  unfold create.
  destruct (new_ok o); cbn [negb]; [|discriminate].
  cbn [alloc].
  destruct (init _ _ _ _ _ _ _ _) as [[[t h1] ok]|] eqn:Hinit;
    cbn [mbind option_bind]; [|discriminate].
  destruct ok; cbn [negb]; [|discriminate].
  destruct (init_true_inv _ _ _ _ _ _ _ _ _ _ Hinit)
    as (l & n & bytes & -> & Hl).
  rewrite (init_eval fam_init ctl o clientPid processPid l n bytes zeroed _ Hl)
    in Hinit.
  destruct (super_init_ok o); cbn [negb] in Hinit; [|discriminate].
  destruct (HasErrors (fam_init bytes)); [discriminate|].
  destruct (trie_ok o); cbn [negb] in Hinit; [|discriminate].
  destruct (table_ok o); cbn [negb] in Hinit; [|discriminate].
  injection Hinit as <- <-. intros [= <- <-].
  assert (l < length h)%nat as Hlt.
  { pose proof (lookup_lt_Some _ _ _ Hl) as Hlen.
    rewrite length_app in Hlen. cbn in Hlen.
    destruct (decide (l = length h)) as [->|]; [|lia].
    rewrite lookup_app_r, Nat.sub_diag in Hl by done. discriminate. }
  rewrite retain_app_l by done.
  rewrite <- !app_assoc. cbn [app].
  rewrite insert_new_cell by apply length_retain.
  rewrite length_app. cbn [length].
  eexists. split.
  { unfold pip_at, deref. cbn [mbind option_bind].
    rewrite lookup_app_r by (by rewrite length_retain).
    rewrite length_retain, Nat.sub_diag. cbn. reflexivity. }
  unfold scalars_set.
  cbn [pathCache_ lastPathLookup_ counters_ disableCaching_ oldPathCache_
       processTreeCount_ set_payload_ set_lastPathLookup_ set_pathCache_
       set_oldPathCache_ set_fam_ set_cacheCallCnt_ set_disableCaching_
       set_counters_ set_processTreeCount_ set_processId_ set_clientPid_
       numCacheHits numCacheMisses].
  split.
  { unfold trie_at, deref. cbn [mbind option_bind].
    rewrite lookup_app_r by (rewrite length_retain; lia).
    rewrite length_retain.
    replace (length h + 1 - length h)%nat with 1%nat by lia. cbn. reflexivity. }
  split.
  { unfold table_at, deref. cbn [mbind option_bind].
    rewrite lookup_app_r by (rewrite length_retain; lia).
    rewrite length_retain.
    replace (S (length h + 1) - length h)%nat with 2%nat by lia.
    cbn. reflexivity. }
  done.
Qed.

(** A parser that rejects the empty payload, two heaps that hold one
    payload buffer, and an environment in which every allocation succeeds. *)
Definition reject_empty (bytes : list Byte.byte) : FileAccessManifest :=
  match bytes with
  | [] => {| fam_error := Some "empty manifest"%string; fam_pipId := 0 |}
  | _ => {| fam_error := None; fam_pipId := 7 |}
  end.

Definition empty_payload : list cell := [Cell 1 (ObjBuffer [])].
Definition one_byte_payload : list cell := [Cell 1 (ObjBuffer [Byte.x01])].

Definition all_ok : Oracle :=
  {| new_ok := true; super_init_ok := true; trie_ok := true;
     table_ok := true |}.

Lemma create_failure_leaves_nothing_witness :
  buffer_at empty_payload (Some 0%nat) = Some [] /\
  exists dead : list cell,
    create reject_empty min0_max67 all_ok 1 2 (Some 0%nat) empty_payload
      = Some (empty_payload ++ dead, None) /\
    Forall (λ c, retainCount c = 0%nat) dead.
Proof.
  split; [reflexivity|].
  apply (create_failure_leaves_nothing reject_empty min0_max67 all_ok 1 2
           (Some 0%nat) empty_payload []).
  - reflexivity.
  - left. reflexivity.
Defined.

Lemma create_success_state_witness :
  exists h' : list cell,
    create reject_empty min0_max67 all_ok 1 2 (Some 0%nat) one_byte_payload
      = Some (h', Some 1%nat) /\
    exists t,
      pip_at h' (Some 1%nat) = Some t /\
      trie_at h' (pathCache_ t) = Some [] /\
      table_at h' (lastPathLookup_ t) = Some [] /\
      numCacheHits (counters_ t) = 0%N /\
      numCacheMisses (counters_ t) = 0%N /\
      disableCaching_ t = (g_bxl_enable_cache min0_max67 =? 0) /\
      oldPathCache_ t = None /\
      processTreeCount_ t = 1.
Proof.
  eexists. split.
  - vm_compute. reflexivity.
  - apply (create_success_state reject_empty min0_max67 all_ok 1 2
             (Some 0%nat) one_byte_payload).
    vm_compute. reflexivity.
Defined.

Lemma RefreshDisableCaching_when_disabled_witness :
  disableCaching_ (this after_a_swap) = true /\
  RefreshDisableCaching min0_max67 true after_a_swap
    = Some (after_a_swap, true) /\
  run_thread call_fuel min0_max67 true after_a_swap entry
    = Some (after_a_swap, true, [L105; L127]).
Proof.
  split; [reflexivity|].
  apply (RefreshDisableCaching_when_disabled min0_max67 true after_a_swap).
  reflexivity.
Defined.

(** ** The divisor of [PCT] *)

(** No statement of a call writes the counters. *)
Lemma thread_step_counters ctl alloc_ok (w w' : world) (f f' : frame) :
  thread_step ctl alloc_ok w f = Some (w', f') ->
  counters_ (this w') = counters_ (this w).
Proof.
  unfold thread_step. intros Hs.
  destruct (at_ f); simplify_option_eq;
    repeat case_match; simplify_eq; cbn; done.
Qed.

(** The sum of the two counters, the divisor of [PCT]. *)
Definition probes (c : config) : Z :=
  Z.of_N (numCacheHits (counters_ (this (shared c))))
  + Z.of_N (numCacheMisses (counters_ (this (shared c)))).

(** While a call of the governor is in flight, a probe has been counted. *)
Definition counted (c : config) : Prop := frames c = [] \/ 0 < probes c.

Lemma tracker_step_counted (c c' : config) :
  tracker_step c c' -> counted c -> counted c'.
Proof.
  unfold counted, probes.
  destruct 1 as [c|c path|c i f ctl a w' f' Hf Hs|c info _]; cbn.
  - intros _. right. lia.
  - intros _. right. unfold probe_miss.
    destruct (disableCaching_ _); cbn; lia.
  - intros [Hnil|Hpos].
    + rewrite Hnil in Hf. discriminate.
    + right. by rewrite (thread_step_counters _ _ _ _ _ _ Hs).
  - done.
Qed.

Lemma tracker_steps_counted (c c' : config) :
  rtc tracker_step c c' -> counted c -> counted c'.
Proof.
  induction 1 as [|c c1 c' Hstep _ IH]; [done|].
  intros Hc. apply IH. by eapply tracker_step_counted.
Qed.

(** C9: start from a tracker with no call in flight and let probes, calls
    of the governor and [introspect] interleave in any way.  Whenever a call
    stands at the percentage computation of line 138, the divisor
    [hits + misses] is not 0. *)
Theorem PCT_divisor_nonzero (c0 c : config) (i : nat) (f : frame) :
  frames c0 = [] ->
  rtc tracker_step c0 c ->
  frames c !! i = Some f ->
  at_ f = L138 ->
  probes c ≠ 0.
Proof.
  intros Hnil Hsteps Hf _.
  destruct (tracker_steps_counted c0 c Hsteps) as [Hnone|Hpos].
  - by left.
  - rewrite Hnone in Hf. discriminate.
  - lia.
Qed.

(** A tracker just constructed takes its first miss and its call reaches
    line 138. *)
Definition fresh_tracker : world :=
  World
    {| clientPid_ := 1; payload_ := None; processId_ := 2;
       processTreeCount_ := 1;
       counters_ := {| numCacheHits := 0; numCacheMisses := 0 |};
       disableCaching_ := false; cacheCallCnt_ := 0;
       fam_ := {| fam_error := None; fam_pipId := 0 |};
       oldPathCache_ := None; pathCache_ := Some 0%nat;
       lastPathLookup_ := None |}
    [Cell 1 (ObjTrie [])].

Definition first_miss : world := probe_miss "/usr/include/stdio.h" fresh_tracker.

Lemma first_miss_reaches_L138 :
  rtc tracker_step (Config fresh_tracker [])
    (Config first_miss [Frame L138 None None]).
Proof.
  eapply rtc_l.
  { apply (resolve_miss (Config fresh_tracker []) "/usr/include/stdio.h"). }
  eapply rtc_l.
  { by apply (resolve_frame (Config first_miss [entry]) 0 entry
                min0_max67 true). }
  eapply rtc_l.
  { by apply (resolve_frame (Config first_miss [Frame L136 None None]) 0
                (Frame L136 None None) min0_max67 true). }
  apply rtc_refl.
Defined.

Lemma PCT_divisor_nonzero_witness :
  rtc tracker_step (Config fresh_tracker [])
    (Config first_miss [Frame L138 None None]) /\
  probes (Config first_miss [Frame L138 None None]) ≠ 0.
Proof.
  split; [exact first_miss_reaches_L138|].
  apply (PCT_divisor_nonzero (Config fresh_tracker [])
           (Config first_miss [Frame L138 None None]) 0
           (Frame L138 None None)).
  - reflexivity.
  - exact first_miss_reaches_L138.
  - reflexivity.
  - reflexivity.
Defined.

(* ===================================================================== *)
(** * Properties of [CanonicalizedPath] *)
(* ===================================================================== *)

Local Open Scope method_scope.

(** A path of two characters tagged [Win32Nt], as the public constructor
    builds it: [CanonicalizedPath(PathType::Win32Nt, L"ab", 2)]. *)
Definition two_characters : CanonicalizedPath * list (list N) :=
  CanonicalizedPath_new Win32Nt (L "ab") 2 [].

(** C8, as stated for every value, fails: on a [Win32Nt] path of two
    characters [GetPathString() + 4] lies beyond the buffer, and no string
    without its first four characters is returned. *)
Lemma short_prefixed_path_counterexample :
  Type_ two_characters.1 = Win32Nt /\
  GetPathString two_characters = Some (wat 0 0, two_characters) /\
  c_str_at two_characters.2 (wat 0 0) = Some (L "ab") /\
  GetPathStringWithoutTypePrefix two_characters = None.
Proof. repeat split; vm_compute; reflexivity. Qed.

(** C8, as the code has it: [GetPathStringWithoutTypePrefix] leaves the
    receiver and the strings as they are; it returns nullptr on a [Null]
    path and what [GetPathString] returns, the whole string, on a [Win32]
    path; on a [Win32Nt] or [LocalDevice] path whose string has at least four
    characters it returns the position after the fourth, which designates the
    string without its first four characters. *)
Theorem GetPathStringWithoutTypePrefix_result
    (p : CanonicalizedPath) (st : list (list N)) :
  (Type_ p = Win32Nt \/ Type_ p = LocalDevice ->
   exists b s, m_value p = Some b /\ st !! b = Some s /\ (4 <= length s)%nat) ->
  exists r,
    GetPathStringWithoutTypePrefix (p, st) = Some (r, (p, st)) /\
    match Type_ p with
    | Null => r = wnull
    | Win32 =>
        GetPathString (p, st) = Some (r, (p, st)) /\
        forall b s, m_value p = Some b -> st !! b = Some s ->
          c_str_at st r = Some s
    | Win32Nt | LocalDevice =>
        exists b s,
          m_value p = Some b /\ st !! b = Some s /\
          r = wat b 4 /\ c_str_at st r = Some (drop 4 s)
    end.
Proof.
  intros Hwf. destruct p as [type value].
  unfold GetPathStringWithoutTypePrefix, GetPathString, bind, get_Type,
    get_m_value, get_store, ptr_add, ret. cbn [fst snd Type_ m_value] in *.
  destruct type.
  - by exists wnull.
  - destruct value as [b|].
    + exists (wat b 0). split; [done|]. split; [done|].
      intros b' s [= <-] Hs. cbn. rewrite Hs. cbn.
      by rewrite decide_True by lia.
    + exists wnull. split; [done|]. split; [done|]. by intros b s [=].
  - destruct Hwf as (b & s & -> & Hs & Hlen); [by left|].
    exists (wat b 4). cbn. rewrite Hs.
    rewrite decide_True by lia.
    split; [done|]. exists b, s. repeat split; try done.
    cbn. by rewrite decide_True by lia.
  - destruct Hwf as (b & s & -> & Hs & Hlen); [by right|].
    exists (wat b 4). cbn. rewrite Hs.
    rewrite decide_True by lia.
    split; [done|]. exists b, s. repeat split; try done.
    cbn. by rewrite decide_True by lia.
Qed.

(** An extended-prefix path, as the public constructor builds it. *)
Definition extended_path : CanonicalizedPath * list (list N) :=
  CanonicalizedPath_new Win32Nt (L "\\?\C:\src") 10 [].

Lemma GetPathStringWithoutTypePrefix_result_witness :
  exists r,
    GetPathStringWithoutTypePrefix extended_path = Some (r, extended_path) /\
    exists b s,
      m_value extended_path.1 = Some b /\ extended_path.2 !! b = Some s /\
      r = wat b 4 /\ c_str_at extended_path.2 r = Some (drop 4 s).
Proof.
  apply (GetPathStringWithoutTypePrefix_result extended_path.1 extended_path.2).
  intros _. exists 0%nat, (L "\\?\C:\src").
  split; [reflexivity|]. split; [reflexivity|]. vm_compute. lia.
Defined.

(** C10: the move constructor gives the new value the type tag and the
    string block of [other], allocates nothing, and leaves [other] tagged
    [Null] (so [IsNull()] holds of it) with a null [m_value]. *)
Theorem CanonicalizedPath_move_transfers
    (other : CanonicalizedPath) (st : list (list N)) :
  exists q other',
    CanonicalizedPath_move (other, st) = Some (q, (other', st)) /\
    Type_ q = Type_ other /\
    m_value q = m_value other /\
    IsNull (other', st) = Some (true, (other', st)) /\
    m_value other' = None.
Proof.
  destruct other as [type value].
  exists {| Type_ := type; m_value := value |},
         {| Type_ := Null; m_value := None |}.
  repeat split.
Qed.

(* ===================================================================== *)
(** * Further properties of construction and teardown *)
(* ===================================================================== *)

Local Close Scope method_scope.

(** What [OSSafeReleaseNULL] does to the heap. *)
Definition released (p : option nat) (h : list cell) : list cell :=
  (OSSafeReleaseNULL p h).1.


(** The tracker that a successful [init] leaves in a heap that had [n]
    cells before [create] allocated the tracker. *)
Definition constructed (fam : FileAccessManifest) (ctl : SysCtl)
    (clientPid processPid : Z) (payload : option nat) (n : nat)
  : SandboxedPip :=
  set_lastPathLookup_ (Some (S (S n)))
    (set_pathCache_ (Some (S n))
       (set_oldPathCache_ None
          (set_fam_ fam
             (scalars_set ctl clientPid processPid payload zeroed)))).

(** [create] when nothing fails: the payload is retained, and the tracker,
    the cache and the lookup table are the next three cells. *)
Lemma create_success_eval
    fam_init ctl o clientPid processPid l n bytes (h : list cell) :
  h !! l = Some (Cell (S n) (ObjBuffer bytes)) ->
  new_ok o = true -> super_init_ok o = true ->
  HasErrors (fam_init bytes) = false ->
  trie_ok o = true -> table_ok o = true ->
  create fam_init ctl o clientPid processPid (Some l) h
  = Some (retain l h ++
            [Cell 1 (ObjPip (constructed (fam_init bytes) ctl clientPid
                               processPid (Some l) (length h)));
             Cell 1 (ObjTrie []); Cell 1 (ObjThreadLocal [])],
          Some (length h)).
Proof.
  intros Hl Hn Hs He Ht Hb.
  assert (l < length h)%nat as Hlt by (by eapply lookup_lt_Some).
  unfold create. rewrite Hn. cbn [negb alloc].
  rewrite (init_eval fam_init ctl o clientPid processPid l n bytes zeroed
             (h ++ [Cell 1 (ObjPip zeroed)]))
    by (by apply lookup_app_l_Some).
  rewrite Hs, He, Ht, Hb. cbn [negb mbind option_bind].
  rewrite retain_app_l by done.
  rewrite <- !app_assoc. cbn [app].
  rewrite insert_new_cell by apply length_retain.
  rewrite length_app. cbn [length].
  unfold constructed. by rewrite Nat.add_1_r.
Qed.

(** [create] when the manifest does not parse or the cache cannot be
    allocated: the tracker is the only new cell, and it is dead. *)
Lemma create_early_failure_eval
    fam_init ctl o clientPid processPid l n bytes (h : list cell) :
  h !! l = Some (Cell (S n) (ObjBuffer bytes)) ->
  new_ok o = true -> super_init_ok o = true ->
  HasErrors (fam_init bytes) = true \/ trie_ok o = false ->
  exists t,
    create fam_init ctl o clientPid processPid (Some l) h
    = Some (h ++ [Cell 0 (ObjPip t)], None).
Proof.
  intros Hl Hn Hs Hfail.
  assert (l < length h)%nat as Hlt by (by eapply lookup_lt_Some).
  unfold create. rewrite Hn. cbn [negb alloc].
  rewrite (init_eval fam_init ctl o clientPid processPid l n bytes zeroed
             (h ++ [Cell 1 (ObjPip zeroed)]))
    by (by apply lookup_app_l_Some).
  rewrite Hs. cbn [negb mbind option_bind].
  rewrite retain_app_l by done.
  destruct (HasErrors (fam_init bytes)) eqn:He; cbn [negb].
  { rewrite insert_new_cell, release_pip_last by apply length_retain.
    unfold free, scalars_set.
    cbn [payload_ lastPathLookup_ pathCache_ oldPathCache_ set_payload_
         set_lastPathLookup_ set_pathCache_ set_oldPathCache_ set_fam_
         set_cacheCallCnt_ set_disableCaching_ set_counters_
         set_processTreeCount_ set_processId_ set_clientPid_
         OSSafeReleaseNULL fst snd zeroed].
    rewrite release_app_l, release_retain by (by rewrite length_retain).
    rewrite insert_new_cell by done. by eexists. }
  destruct Hfail as [?|Ht]; [done|]. rewrite Ht. cbn [negb].
  rewrite insert_new_cell, release_pip_last by apply length_retain.
  unfold free, scalars_set.
  cbn [payload_ lastPathLookup_ pathCache_ oldPathCache_ set_payload_
       set_lastPathLookup_ set_pathCache_ set_oldPathCache_ set_fam_
       set_cacheCallCnt_ set_disableCaching_ set_counters_
       set_processTreeCount_ set_processId_ set_clientPid_
       OSSafeReleaseNULL fst snd zeroed].
  rewrite release_app_l, release_retain by (by rewrite length_retain).
  rewrite insert_new_cell by done. by eexists.
Qed.

(** [create] when the lookup table cannot be allocated: the tracker and the
    cache are the new cells, and both are dead. *)
Lemma create_late_failure_eval
    fam_init ctl o clientPid processPid l n bytes (h : list cell) :
  h !! l = Some (Cell (S n) (ObjBuffer bytes)) ->
  new_ok o = true -> super_init_ok o = true ->
  HasErrors (fam_init bytes) = false ->
  trie_ok o = true -> table_ok o = false ->
  exists t,
    create fam_init ctl o clientPid processPid (Some l) h
    = Some (h ++ [Cell 0 (ObjPip t); Cell 0 (ObjTrie [])], None).
Proof.
  intros Hl Hn Hs He Ht Hb.
  assert (l < length h)%nat as Hlt by (by eapply lookup_lt_Some).
  unfold create. rewrite Hn. cbn [negb alloc].
  rewrite (init_eval fam_init ctl o clientPid processPid l n bytes zeroed
             (h ++ [Cell 1 (ObjPip zeroed)]))
    by (by apply lookup_app_l_Some).
  rewrite Hs, He, Ht, Hb. cbn [negb mbind option_bind].
  rewrite retain_app_l by done.
  rewrite <- app_assoc. cbn [app].
  rewrite insert_new_cell, release_pip_last by apply length_retain.
  rewrite length_app. cbn [length].
  unfold free, scalars_set.
  cbn [payload_ lastPathLookup_ pathCache_ oldPathCache_ set_payload_
       set_lastPathLookup_ set_pathCache_ set_oldPathCache_ set_fam_
       set_cacheCallCnt_ set_disableCaching_ set_counters_
       set_processTreeCount_ set_processId_ set_clientPid_
       OSSafeReleaseNULL fst snd].
  rewrite release_app_l, release_retain by (by rewrite length_retain).
  rewrite release_app_r. cbn [release alter list_alter].
  rewrite insert_new_cell by done. by eexists.
Qed.

(** With a live payload buffer, [create] returns an object exactly when
    [new], [OSObject::init], the parse of the manifest and both allocations
    succeed; in every other case it returns nullptr and the heap is the heap
    before the call followed by dead cells only, at most the tracker and
    the cache. *)
Theorem create_returns_object_iff
    fam_init ctl o clientPid processPid payload (h : list cell) bytes :
  buffer_at h payload = Some bytes ->
  exists h' r,
    create fam_init ctl o clientPid processPid payload h = Some (h', r) /\
    (is_Some r <->
     new_ok o = true /\ super_init_ok o = true /\
     HasErrors (fam_init bytes) = false /\
     trie_ok o = true /\ table_ok o = true) /\
    (r = None ->
     exists dead, h' = h ++ dead /\ (length dead <= 2)%nat /\
                  Forall (λ c, retainCount c = 0%nat) dead).
Proof.
  intros Hb.
  destruct (buffer_at_inv _ _ _ Hb) as (l & n & -> & Hl).
  destruct (new_ok o) eqn:Hn.
  2:{ exists h, None. split; [unfold create; by rewrite Hn|].
      split.
      - split; [by intros [? [=]]|]. intros (? & _); done.
      - intros _. exists []. rewrite app_nil_r. cbn. split; [done|].
        split; [lia|done]. }
  destruct (super_init_ok o) eqn:Hs.
  2:{ exists (h ++ [Cell 0 (ObjPip zeroed)]), None.
      split.
      { unfold create. rewrite Hn. cbn [negb alloc].
        rewrite (init_eval fam_init ctl o clientPid processPid l n bytes
                   zeroed (h ++ [Cell 1 (ObjPip zeroed)]))
          by (by apply lookup_app_l_Some).
        rewrite Hs. cbn [negb mbind option_bind].
        rewrite insert_new_cell, release_pip_last by done.
        unfold free.
        cbn [payload_ lastPathLookup_ pathCache_ oldPathCache_ set_payload_
             set_lastPathLookup_ set_pathCache_ set_oldPathCache_
             OSSafeReleaseNULL fst snd zeroed].
        by rewrite insert_new_cell by done. }
      split.
      - split; [by intros [? [=]]|]. intros (_ & ? & _); done.
      - intros _. eexists. split; [reflexivity|]. cbn.
        split; [lia|]. by repeat constructor. }
  destruct (HasErrors (fam_init bytes)) eqn:He.
  { destruct (create_early_failure_eval fam_init ctl o clientPid processPid
                l n bytes h Hl Hn Hs) as (t & Hc); [by left|].
    eexists _, None. split; [done|]. split.
    - split; [by intros [? [=]]|]. intros (_ & _ & ? & _); done.
    - intros _. eexists. split; [reflexivity|]. cbn.
      split; [lia|]. by repeat constructor. }
  destruct (trie_ok o) eqn:Ht.
  2:{ destruct (create_early_failure_eval fam_init ctl o clientPid processPid
                  l n bytes h Hl Hn Hs) as (t & Hc); [by right|].
      eexists _, None. split; [done|]. split.
      - split; [by intros [? [=]]|]. intros (_ & _ & _ & ? & _); done.
      - intros _. eexists. split; [reflexivity|]. cbn.
        split; [lia|]. by repeat constructor. }
  destruct (table_ok o) eqn:Htb.
  2:{ destruct (create_late_failure_eval fam_init ctl o clientPid processPid
                  l n bytes h Hl Hn Hs He Ht Htb) as (t & Hc).
      eexists _, None. split; [done|]. split.
      - split; [by intros [? [=]]|]. intros (_ & _ & _ & _ & ?); done.
      - intros _. eexists. split; [reflexivity|]. cbn.
        split; [lia|]. by repeat constructor. }
  eexists _, _. split.
  { by apply (create_success_eval fam_init ctl o clientPid processPid l n
                bytes h). }
  split; [|done]. split; [done|]. by eexists.
Qed.

Lemma create_returns_object_iff_witness :
  buffer_at one_byte_payload (Some 0%nat) = Some [Byte.x01] /\
  exists h' r,
    create reject_empty min0_max67 all_ok 1 2 (Some 0%nat) one_byte_payload
      = Some (h', r) /\
    (is_Some r <->
     new_ok all_ok = true /\ super_init_ok all_ok = true /\
     HasErrors (reject_empty [Byte.x01]) = false /\
     trie_ok all_ok = true /\ table_ok all_ok = true) /\
    (r = None ->
     exists dead, h' = one_byte_payload ++ dead /\ (length dead <= 2)%nat /\
                  Forall (λ c, retainCount c = 0%nat) dead).
Proof.
  split; [reflexivity|].
  apply (create_returns_object_iff reject_empty min0_max67 all_ok 1 2
           (Some 0%nat) one_byte_payload [Byte.x01]).
  reflexivity.
Defined.

(** What a [create] that returns an object has done. *)
Lemma create_success_inv
    fam_init ctl o clientPid processPid payload (h h' : list cell) (p : nat) :
  create fam_init ctl o clientPid processPid payload h = Some (h', Some p) ->
  exists l n bytes,
    payload = Some l /\
    h !! l = Some (Cell (S n) (ObjBuffer bytes)) /\
    p = length h /\
    h' = retain l h ++
           [Cell 1 (ObjPip (constructed (fam_init bytes) ctl clientPid
                              processPid (Some l) (length h)));
            Cell 1 (ObjTrie []); Cell 1 (ObjThreadLocal [])].
Proof.
  intros Hc. pose proof Hc as Hc'. revert Hc'. unfold create.
  destruct (new_ok o) eqn:Hn; cbn [negb]; [|discriminate].
  cbn [alloc].
  destruct (init _ _ _ _ _ _ _ _) as [[[t h1] ok]|] eqn:Hinit;
    cbn [mbind option_bind]; [|discriminate].
  destruct ok; cbn [negb]; [|discriminate]. intros _.
  destruct (init_true_inv _ _ _ _ _ _ _ _ _ _ Hinit)
    as (l & n & bytes & -> & Hl).
  assert (l < length h)%nat as Hlt.
  { pose proof (lookup_lt_Some _ _ _ Hl) as Hlen.
    rewrite length_app in Hlen. cbn in Hlen.
    destruct (decide (l = length h)) as [->|]; [|lia].
    rewrite lookup_app_r, Nat.sub_diag in Hl by done. discriminate. }
  rewrite lookup_app_l in Hl by done.
  rewrite (init_eval fam_init ctl o clientPid processPid l n bytes zeroed
             (h ++ [Cell 1 (ObjPip zeroed)]))
    in Hinit by (by apply lookup_app_l_Some).
  destruct (super_init_ok o) eqn:Hs; cbn [negb] in Hinit; [|discriminate].
  destruct (HasErrors (fam_init bytes)) eqn:He; [discriminate|].
  destruct (trie_ok o) eqn:Ht; cbn [negb] in Hinit; [|discriminate].
  destruct (table_ok o) eqn:Hb; cbn [negb] in Hinit; [|discriminate].
  rewrite (create_success_eval fam_init ctl o clientPid processPid l n bytes
             h Hl Hn Hs He Ht Hb) in Hc.
  injection Hc as <- <-. by exists l, n, bytes.
Qed.

(** A [create] that returns an object has retained the payload once, has
    touched no other cell that existed, and has appended exactly three cells
    with retain count 1: the tracker at the returned address, then its empty
    cache and its empty lookup table.  The tracker holds the two pids, the
    payload pointer and the parsed manifest. *)
Theorem create_success_heap
    fam_init ctl o clientPid processPid payload (h h' : list cell) (p : nat) :
  create fam_init ctl o clientPid processPid payload h = Some (h', Some p) ->
  exists l c bytes t,
    payload = Some l /\ h !! l = Some c /\ obj c = ObjBuffer bytes /\
    p = length h /\
    h' = <[l := Cell (S (retainCount c)) (obj c)]> h ++
           [Cell 1 (ObjPip t); Cell 1 (ObjTrie []);
            Cell 1 (ObjThreadLocal [])] /\
    clientPid_ t = clientPid /\ processId_ t = processPid /\
    payload_ t = payload /\ cacheCallCnt_ t = 0 /\
    fam_ t = fam_init bytes /\
    pathCache_ t = Some (S p) /\ lastPathLookup_ t = Some (S (S p)).
Proof.
  intros Hc.
  destruct (create_success_inv _ _ _ _ _ _ _ _ _ Hc)
    as (l & n & bytes & -> & Hl & -> & ->).
  exists l, (Cell (S n) (ObjBuffer bytes)), bytes. eexists.
  split; [done|]. split; [done|]. split; [done|]. split; [done|].
  split.
  { f_equal. unfold retain.
    apply list_eq. intros i.
    rewrite list_lookup_alter, list_lookup_insert.
    destruct (decide (l = i)) as [->|Hne].
    - rewrite Hl. cbn. rewrite decide_True; [done|].
      split; [done|]. by eapply lookup_lt_Some.
    - rewrite decide_False; [done|]. by intros [? _]. }
  done.
Qed.

(** Construction followed by teardown leaves nothing behind: releasing the
    object that [create] returned runs [free], and the heap is again the heap
    before [create] followed by three dead cells. *)
Theorem create_then_release_leaves_nothing
    fam_init ctl o clientPid processPid payload (h h' : list cell) (p : nat) :
  create fam_init ctl o clientPid processPid payload h = Some (h', Some p) ->
  exists dead,
    release_pip p h' = h ++ dead /\ length dead = 3%nat /\
    Forall (λ c, retainCount c = 0%nat) dead.
Proof.
  intros Hc.
  destruct (create_success_inv _ _ _ _ _ _ _ _ _ Hc)
    as (l & n & bytes & -> & Hl & -> & ->).
  assert (l < length h)%nat as Hlt by (by eapply lookup_lt_Some).
  rewrite release_pip_last by apply length_retain.
  unfold free, constructed, scalars_set.
  cbn [payload_ lastPathLookup_ pathCache_ oldPathCache_ set_payload_
       set_lastPathLookup_ set_pathCache_ set_oldPathCache_ set_fam_
       set_cacheCallCnt_ set_disableCaching_ set_counters_
       set_processTreeCount_ set_processId_ set_clientPid_
       OSSafeReleaseNULL fst snd].
  rewrite release_app_l, release_retain by (by rewrite length_retain).
  replace (S (S (length h))) with (length h + 2)%nat by lia.
  rewrite release_app_r. cbn [release alter list_alter].
  replace (S (length h)) with (length h + 1)%nat by lia.
  rewrite release_app_r. cbn [release alter list_alter].
  rewrite insert_new_cell by done.
  eexists [_; _; _]. split; [reflexivity|]. split; [done|].
  by repeat constructor.
Qed.

Lemma create_success_heap_witness :
  exists h' : list cell,
    create reject_empty min0_max67 all_ok 1 2 (Some 0%nat) one_byte_payload
      = Some (h', Some 1%nat) /\
    exists l c bytes t,
      Some 0%nat = Some l /\ one_byte_payload !! l = Some c /\
      obj c = ObjBuffer bytes /\
      1%nat = length one_byte_payload /\
      h' = <[l := Cell (S (retainCount c)) (obj c)]> one_byte_payload ++
             [Cell 1 (ObjPip t); Cell 1 (ObjTrie []);
              Cell 1 (ObjThreadLocal [])] /\
      clientPid_ t = 1 /\ processId_ t = 2 /\
      payload_ t = Some 0%nat /\ cacheCallCnt_ t = 0 /\
      fam_ t = reject_empty bytes /\
      pathCache_ t = Some 2%nat /\ lastPathLookup_ t = Some 3%nat.
Proof.
  eexists. split.
  - vm_compute. reflexivity.
  - apply (create_success_heap reject_empty min0_max67 all_ok 1 2
             (Some 0%nat) one_byte_payload).
    vm_compute. reflexivity.
Defined.

Lemma create_then_release_leaves_nothing_witness :
  exists h' : list cell,
    create reject_empty min0_max67 all_ok 1 2 (Some 0%nat) one_byte_payload
      = Some (h', Some 1%nat) /\
    exists dead,
      release_pip 1 h' = one_byte_payload ++ dead /\ length dead = 3%nat /\
      Forall (λ c, retainCount c = 0%nat) dead.
Proof.
  eexists. split.
  - vm_compute. reflexivity.
  - apply (create_then_release_leaves_nothing reject_empty min0_max67 all_ok
             1 2 (Some 0%nat) one_byte_payload).
    vm_compute. reflexivity.
Defined.

(* ===================================================================== *)
(** * Further properties of the governor *)
(* ===================================================================== *)

(** While the cache holds no more entries than the minimum, a call on an
    enabled tracker changes nothing and returns false, whatever the counters
    are: it executes lines 105, 136 and 127, so [PCT] (line 138) is not
    evaluated, not even with both counters at 0. *)
Theorem RefreshDisableCaching_below_minimum ctl alloc_ok (w : world) entries :
  disableCaching_ (this w) = false ->
  trie_at (objs w) (pathCache_ (this w)) = Some entries ->
  getCount entries <= g_bxl_disable_cache_min_entries ctl ->
  RefreshDisableCaching ctl alloc_ok w = Some (w, false) /\
  run_thread call_fuel ctl alloc_ok w entry
    = Some (w, false, [L105; L136; L127]).
Proof.
  intros Hd Ht Hle.
  assert ((getCount entries >? g_bxl_disable_cache_min_entries ctl) = false)
    as Hc by lia.
  split.
  - unfold RefreshDisableCaching, ShouldDisableCaching.
    rewrite Hd, Ht. cbn. by rewrite Hc.
  - unfold call_fuel.
    erewrite run_thread_step;
      [ | reflexivity | unfold thread_step; cbn; rewrite Hd; reflexivity ].
    erewrite run_thread_step;
      [ | reflexivity
        | unfold thread_step; cbn; rewrite Ht; cbn; rewrite Hc; reflexivity ].
    erewrite run_thread_step;
      [ | reflexivity | unfold thread_step; cbn; reflexivity ].
    erewrite run_thread_returned by reflexivity.
    cbn. by rewrite Hd.
Qed.

Lemma RefreshDisableCaching_below_minimum_witness :
  disableCaching_ (this fresh_tracker) = false /\
  RefreshDisableCaching min0_max67 true fresh_tracker
    = Some (fresh_tracker, false) /\
  run_thread call_fuel min0_max67 true fresh_tracker entry
    = Some (fresh_tracker, false, [L105; L136; L127]).
Proof.
  split; [reflexivity|].
  apply (RefreshDisableCaching_below_minimum min0_max67 true fresh_tracker []).
  - reflexivity.
  - reflexivity.
  - vm_compute. discriminate.
Defined.

(** A second call right after a first one changes nothing and returns what
    the first returned, whether or not its allocation would succeed. *)
Theorem RefreshDisableCaching_twice ctl alloc_ok alloc_ok' (w w1 : world) r :
  RefreshDisableCaching ctl alloc_ok w = Some (w1, r) ->
  RefreshDisableCaching ctl alloc_ok' w1 = Some (w1, r).
Proof.
  unfold RefreshDisableCaching.
  destruct (disableCaching_ (this w)) eqn:Hd; cbn [negb].
  { intros [= <- <-]. by rewrite Hd. }
  destruct (ShouldDisableCaching ctl w) as [[]|] eqn:Hs;
    cbn [mbind option_bind]; [| |discriminate].
  - destruct (createPathTrie alloc_ok (objs w)) as [h p].
    rewrite OSCompareAndSwapPtr_same. intros [= <- <-]. done.
  - intros [= <- <-]. rewrite Hd, Hs. cbn. done.
Qed.

Lemma RefreshDisableCaching_twice_witness :
  exists w1,
    RefreshDisableCaching min0_max67 true two_hits_one_miss = Some (w1, true)
    /\ RefreshDisableCaching min0_max67 false w1 = Some (w1, true).
Proof.
  eexists. split.
  - vm_compute. reflexivity.
  - apply (RefreshDisableCaching_twice min0_max67 true false
             two_hits_one_miss).
    vm_compute. reflexivity.
Defined.

(** The members that [RefreshDisableCaching] leaves alone. *)
Definition bookkeeping (t : SandboxedPip)
  : Z * option nat * Z * Z * Counters * Z * FileAccessManifest * option nat :=
  (clientPid_ t, payload_ t, processId_ t, processTreeCount_ t, counters_ t,
   cacheCallCnt_ t, fam_ t, lastPathLookup_ t).

Lemma thread_step_bookkeeping ctl alloc_ok (w w' : world) (f f' : frame) :
  thread_step ctl alloc_ok w f = Some (w', f') ->
  bookkeeping (this w') = bookkeeping (this w).
Proof.
  unfold thread_step. intros Hs.
  destruct (at_ f); simplify_option_eq;
    repeat case_match; simplify_eq; cbn; done.
Qed.

(** However calls of [RefreshDisableCaching] and [introspect] interleave,
    they never write the pids, the payload pointer, the tree count, the
    counters, the call count, the manifest or the lookup-table pointer. *)
Theorem governor_leaves_bookkeeping_alone (c c' : config) :
  rtc pip_step c c' ->
  bookkeeping (this (shared c')) = bookkeeping (this (shared c)).
Proof.
  induction 1 as [|c c1 c' Hstep _ IH]; [done|].
  rewrite IH.
  destruct Hstep as [c|c i f ctl a w' f' _ Hs|c info _]; cbn; [done| |done].
  by eapply thread_step_bookkeeping.
Qed.

(** The tracker of [two_hits_one_miss] after a call has written the flag. *)
Definition flag_written : config :=
  Config (World (set_disableCaching_ true (this two_hits_one_miss))
                (objs two_hits_one_miss)) [Frame L111 None None].

Lemma flag_written_reachable :
  rtc pip_step (Config two_hits_one_miss []) flag_written.
Proof.
  eapply rtc_l; [apply (step_call (Config two_hits_one_miss []))|].
  eapply rtc_l.
  { by apply (step_frame (Config two_hits_one_miss [entry]) 0 entry
                min0_max67 true). }
  eapply rtc_l.
  { by apply (step_frame (Config two_hits_one_miss [Frame L136 None None]) 0
                (Frame L136 None None) min0_max67 true). }
  eapply rtc_l.
  { by apply (step_frame (Config two_hits_one_miss [Frame L138 None None]) 0
                (Frame L138 None None) min0_max67 true). }
  eapply rtc_l; [|apply rtc_refl].
  by apply (step_frame (Config two_hits_one_miss [Frame L110 None None]) 0
              (Frame L110 None None) min0_max67 true).
Defined.

Lemma governor_leaves_bookkeeping_alone_witness :
  rtc pip_step (Config two_hits_one_miss []) flag_written /\
  bookkeeping (this (shared flag_written))
  = bookkeeping (this two_hits_one_miss).
Proof.
  split; [exact flag_written_reachable|].
  exact (governor_leaves_bookkeeping_alone _ _ flag_written_reachable).
Defined.

(** ** No freed cache behind the handles *)

(** A pointer is safe in a heap when it is null or designates a live
    cache. *)
Definition live_cache (h : list cell) (p : option nat) : Prop :=
  forall l, p = Some l ->
    exists n es, h !! l = Some (Cell (S n) (ObjTrie es)).

(** The replacement a call holds between its allocation and the end of its
    swap attempt, and the outgoing cache a winning call is about to store. *)
Definition owned (f : frame) : option nat :=
  match at_ f with L113 | L122 => newCache f | _ => None end.

Definition kept (f : frame) : option nat :=
  match at_ f with L117 => oldCache f | _ => None end.

(** The invariant of the interleaved calls: the two handles and what the
    calls hold are live, and a replacement that a call still owns is known
    to nobody else. *)
Record safe (c : config) : Prop := {
  safe_active : live_cache (objs (shared c)) (pathCache_ (this (shared c)));
  safe_retired :
    live_cache (objs (shared c)) (oldPathCache_ (this (shared c)));
  safe_frames : forall i f, frames c !! i = Some f ->
    live_cache (objs (shared c)) (owned f) /\
    live_cache (objs (shared c)) (kept f);
  safe_private : forall i f n, frames c !! i = Some f -> owned f = Some n ->
    pathCache_ (this (shared c)) ≠ Some n /\
    oldPathCache_ (this (shared c)) ≠ Some n /\
    forall j g, frames c !! j = Some g ->
      kept g ≠ Some n /\ (i ≠ j -> owned g ≠ Some n)
}.

Lemma live_cache_None (h : list cell) : live_cache h None.
Proof. by intros l [=]. Qed.

Lemma live_cache_lt (h : list cell) (l : nat) :
  live_cache h (Some l) -> (l < length h)%nat.
Proof.
  intros H. destruct (H l eq_refl) as (n & es & Hl).
  by eapply lookup_lt_Some.
Qed.

Lemma live_cache_app (h s : list cell) (p : option nat) :
  live_cache h p -> live_cache (h ++ s) p.
Proof.
  intros H l Hp. destruct (H l Hp) as (n & es & Hl).
  exists n, es. by apply lookup_app_l_Some.
Qed.

Lemma live_cache_new (h : list cell) :
  live_cache (h ++ [Cell 1 (ObjTrie [])]) (Some (length h)).
Proof.
  intros l [= <-]. exists 0%nat, [].
  by rewrite lookup_app_r, Nat.sub_diag.
Qed.

Lemma live_cache_release (h : list cell) (n : nat) (p : option nat) :
  p ≠ Some n -> live_cache h p -> live_cache (release n h) p.
Proof.
  intros Hne H l Hp. destruct (H l Hp) as (k & es & Hl).
  exists k, es. rewrite release_lookup_ne; [done|]. congruence.
Qed.

Lemma live_cache_trie_at (h : list cell) (p : option nat) :
  live_cache h p <-> p = None \/ is_Some (trie_at h p).
Proof.
  unfold trie_at, deref. split.
  - intros H. destruct p as [l|]; [right|by left].
    destruct (H l eq_refl) as (n & es & Hl). cbn. rewrite Hl. cbn.
    rewrite decide_True by lia. by eexists.
  - intros [->|[es He]]; [apply live_cache_None|].
    intros l ->. cbn in He.
    destruct (h !! l) as [[rc o]|]; [|done]. cbn in He.
    case_decide as Hrc; [|done]. cbn in He. destruct o; try done.
    injection He as ->. destruct rc; [lia|]. by eexists _, _.
Qed.

(** Frames whose statement is neither the swap, nor the store, nor the
    release hold nothing. *)
Lemma holds_nothing (f : frame) :
  at_ f ≠ L113 -> at_ f ≠ L122 -> at_ f ≠ L117 ->
  owned f = None /\ kept f = None.
Proof. unfold owned, kept. by destruct (at_ f). Qed.

(** Replacing a frame by one that holds nothing, in an unchanged world,
    keeps the invariant. *)
Lemma safe_frame_idle (w : world) (fs : list frame) (i : nat) (f' : frame) :
  safe (Config w fs) ->
  owned f' = None -> kept f' = None ->
  safe (Config w (<[i := f']> fs)).
Proof.
  intros [Ha Hr Hf Hp] Ho Hk. cbn in *.
  assert (forall j g, <[i := f']> fs !! j = Some g ->
            g = f' \/ fs !! j = Some g) as Hlook.
  { intros j g Hg. apply list_lookup_insert_Some in Hg.
    destruct Hg as [(-> & -> & _)|[_ Hg]]; [by left|by right]. }
  split; cbn; [done|done| |].
  - intros j g Hg. destruct (Hlook j g Hg) as [->|Hg'].
    + rewrite Ho, Hk. split; apply live_cache_None.
    + by apply (Hf j).
  - intros j g n Hg Hn.
    destruct (Hlook j g Hg) as [->|Hg']; [congruence|].
    assert (i ≠ j) as Hij.
    { intros ->. apply list_lookup_insert_Some in Hg.
      destruct Hg as [(_ & -> & _)|[? _]]; [congruence|done]. }
    destruct (Hp j g n Hg' Hn) as (H1 & H2 & H3).
    split; [done|]. split; [done|].
    intros k g' Hg2. destruct (Hlook k g' Hg2) as [->|Hg2'].
    + rewrite Ho, Hk. split; [done|]. by intros _.
    + by apply H3.
Qed.

Lemma lookup_insert_frame (fs : list frame) (i j : nat) (f' g : frame) :
  <[i := f']> fs !! j = Some g ->
  (j = i /\ g = f') \/ (j ≠ i /\ fs !! j = Some g).
Proof.
  intros Hg. apply list_lookup_insert_Some in Hg.
  destruct Hg as [(-> & -> & _)|[? Hg]]; [by left|right]. split; congruence.
Qed.

(** The invariant looks at the heap and the two handles only. *)
Lemma safe_ext (w w' : world) (fs : list frame) :
  objs w' = objs w ->
  pathCache_ (this w') = pathCache_ (this w) ->
  oldPathCache_ (this w') = oldPathCache_ (this w) ->
  safe (Config w fs) -> safe (Config w' fs).
Proof.
  intros Ho Hp Hr [Ha Hrt Hf Hpr]. cbn in *.
  split; cbn; rewrite ?Ho, ?Hp, ?Hr; done.
Qed.

(** A step of a frame that changes neither what the frame holds nor the
    world keeps the invariant. *)
Lemma safe_frame_same (w : world) (fs : list frame) (i : nat) (f f' : frame) :
  fs !! i = Some f ->
  owned f' = owned f -> kept f' = kept f ->
  safe (Config w fs) -> safe (Config w (<[i := f']> fs)).
Proof.
  intros Hi Ho Hk [Ha Hr Hf Hp]. cbn in *.
  split; cbn; [done|done| |].
  - intros j g Hg.
    destruct (lookup_insert_frame _ _ _ _ _ Hg) as [[-> ->]|[_ Hg']].
    + rewrite Ho, Hk. by apply (Hf i).
    + by apply (Hf j).
  - intros j g n Hg Hn.
    assert (exists g0, fs !! j = Some g0 /\ owned g0 = Some n)
      as (g0 & Hg0 & Hn0).
    { destruct (lookup_insert_frame _ _ _ _ _ Hg) as [[-> ->]|[_ Hg']].
      - exists f. split; [done|]. by rewrite <- Ho.
      - by exists g. }
    destruct (Hp j g0 n Hg0 Hn0) as (H1 & H2 & H3).
    split; [done|]. split; [done|].
    intros k g' Hg2.
    destruct (lookup_insert_frame _ _ _ _ _ Hg2) as [[-> ->]|[_ Hg2']].
    + rewrite Ho, Hk. by apply H3.
    + by apply H3.
Qed.

(** Every statement of a call keeps the invariant. *)
Lemma thread_step_safe (c : config) (i : nat) (f f' : frame) ctl alloc_ok w' :
  frames c !! i = Some f ->
  thread_step ctl alloc_ok (shared c) f = Some (w', f') ->
  safe c ->
  safe (Config w' (<[i := f']> (frames c))).
Proof.
  destruct c as [[t h] fs]. cbn [shared frames].
  intros Hi Hs Hsafe. unfold thread_step in Hs. cbn [this objs] in Hs.
  destruct f as [l old new]. cbn [at_ oldCache newCache goto] in Hs.
  destruct l.
  - (* line 105 *)
    assert (w' = World t h) as ->
        by (destruct (disableCaching_ t); cbn in Hs; congruence).
    eapply safe_frame_same; [done| | |done];
      destruct (disableCaching_ t); cbn in Hs; by simplify_eq.
  - (* line 136 *)
    destruct (trie_at h (pathCache_ t)); [|done]. cbn in Hs.
    assert (w' = World t h) as -> by (case_match; congruence).
    eapply safe_frame_same; [done| | |done]; case_match; by simplify_eq.
  - (* line 138 *)
    destruct (PCT _ _); [|done]. cbn in Hs.
    assert (w' = World t h) as -> by (case_match; congruence).
    eapply safe_frame_same; [done| | |done]; case_match; by simplify_eq.
  - (* line 110 *)
    injection Hs as <- <-.
    eapply safe_frame_same; [done|done|done|].
    by eapply safe_ext; [| | |exact Hsafe].
  - (* line 111 *)
    injection Hs as <- <-. by eapply safe_frame_same.
  - (* line 112 *)
    destruct alloc_ok; cbn in Hs; injection Hs as <- <-.
    2:{ by eapply safe_frame_same. }
    destruct Hsafe as [Ha Hr Hf Hp]. cbn in *.
    assert (forall j g, fs !! j = Some g -> owned g ≠ Some (length h)) as Hfo.
    { intros j g Hg Ho. destruct (Hf j g Hg) as [Hl _].
      rewrite Ho in Hl. apply live_cache_lt in Hl. lia. }
    assert (forall j g, fs !! j = Some g -> kept g ≠ Some (length h)) as Hfk.
    { intros j g Hg Hk. destruct (Hf j g Hg) as [_ Hl].
      rewrite Hk in Hl. apply live_cache_lt in Hl. lia. }
    split; cbn.
    + by apply live_cache_app.
    + by apply live_cache_app.
    + intros j g Hg.
      destruct (lookup_insert_frame _ _ _ _ _ Hg) as [[-> ->]|[_ Hg']].
      * split; [apply live_cache_new|apply live_cache_None].
      * destruct (Hf j g Hg'). split; by apply live_cache_app.
    + intros j g n Hg Hn.
      destruct (lookup_insert_frame _ _ _ _ _ Hg) as [[-> ->]|[Hji Hg']].
      * cbn in Hn. injection Hn as <-.
        split. { intros E. rewrite E in Ha. apply live_cache_lt in Ha. lia. }
        split. { intros E. rewrite E in Hr. apply live_cache_lt in Hr. lia. }
        intros k g' Hg2.
        destruct (lookup_insert_frame _ _ _ _ _ Hg2) as [[-> ->]|[_ Hg2']].
        -- split; [done|]. by intros [].
        -- split; [by eapply Hfk|]. intros _. by eapply Hfo.
      * destruct (Hp j g n Hg' Hn) as (H1 & H2 & H3).
        split; [done|]. split; [done|].
        intros k g' Hg2.
        destruct (lookup_insert_frame _ _ _ _ _ Hg2) as [[-> ->]|[_ Hg2']].
        -- split; [done|]. intros _. cbn. intros [= <-].
           by eapply (Hfo j g).
        -- by apply H3.
  - (* line 113 *)
    unfold OSCompareAndSwapPtr in Hs.
    destruct (decide (pathCache_ t = old)) as [<-|Hne];
      injection Hs as <- <-.
    2:{ rewrite set_pathCache__same. by eapply safe_frame_same. }
    destruct Hsafe as [Ha Hr Hf Hp]. cbn in *.
    split; cbn.
    + by apply (Hf i _ Hi).
    + done.
    + intros j g Hg.
      destruct (lookup_insert_frame _ _ _ _ _ Hg) as [[-> ->]|[_ Hg']].
      * split; [apply live_cache_None|done].
      * by apply (Hf j).
    + intros j g n Hg Hn.
      destruct (lookup_insert_frame _ _ _ _ _ Hg) as [[-> ->]|[Hji Hg']];
        [done|].
      destruct (Hp j g n Hg' Hn) as (H1 & H2 & H3).
      split. { by apply (H3 i _ Hi). }
      split; [done|].
      intros k g' Hg2.
      destruct (lookup_insert_frame _ _ _ _ _ Hg2) as [[-> ->]|[_ Hg2']].
      * split; [done|]. by intros _.
      * by apply H3.
  - (* line 117 *)
    injection Hs as <- <-.
    destruct Hsafe as [Ha Hr Hf Hp]. cbn in *.
    split; cbn.
    + done.
    + by apply (Hf i _ Hi).
    + intros j g Hg.
      destruct (lookup_insert_frame _ _ _ _ _ Hg) as [[-> ->]|[_ Hg']].
      * split; apply live_cache_None.
      * by apply (Hf j).
    + intros j g n Hg Hn.
      destruct (lookup_insert_frame _ _ _ _ _ Hg) as [[-> ->]|[Hji Hg']];
        [done|].
      destruct (Hp j g n Hg' Hn) as (H1 & H2 & H3).
      split; [done|]. split. { by apply (H3 i _ Hi). }
      intros k g' Hg2.
      destruct (lookup_insert_frame _ _ _ _ _ Hg2) as [[-> ->]|[_ Hg2']].
      * split; [done|]. by intros _.
      * by apply H3.
  - (* line 122 *)
    destruct new as [n|]; cbn in Hs; injection Hs as <- <-.
    2:{ by eapply safe_frame_same. }
    destruct Hsafe as [Ha Hr Hf Hp]. cbn in *.
    destruct (Hp i _ n Hi eq_refl) as (Hn1 & Hn2 & Hn3).
    split; cbn.
    + by apply live_cache_release.
    + by apply live_cache_release.
    + intros j g Hg.
      destruct (lookup_insert_frame _ _ _ _ _ Hg) as [[-> ->]|[Hji Hg']].
      * split; apply live_cache_None.
      * destruct (Hf j g Hg'). destruct (Hn3 j g Hg').
        split; apply live_cache_release; auto.
    + intros j g m Hg Hm.
      destruct (lookup_insert_frame _ _ _ _ _ Hg) as [[-> ->]|[Hji Hg']];
        [done|].
      destruct (Hp j g m Hg' Hm) as (H1 & H2 & H3).
      split; [done|]. split; [done|].
      intros k g' Hg2.
      destruct (lookup_insert_frame _ _ _ _ _ Hg2) as [[-> ->]|[_ Hg2']].
      * split; [done|]. by intros _.
      * by apply H3.
  - (* line 127 *)
    injection Hs as <- <-. by eapply safe_frame_same.
  - (* returned *)
    done.
Qed.

Lemma pip_step_safe (c c' : config) : pip_step c c' -> safe c -> safe c'.
Proof.
  destruct 1 as [c|c i f ctl a w' f' Hf Hs|c info _]; [| |done].
  - intros [Ha Hr Hf Hp]. split; cbn; [done|done| |].
    + intros j g Hg. apply lookup_snoc_Some in Hg.
      destruct Hg as [[_ Hg]|[_ <-]]; [by apply (Hf j)|].
      split; apply live_cache_None.
    + intros j g n Hg Hn. apply lookup_snoc_Some in Hg.
      destruct Hg as [[_ Hg]|[_ <-]]; [|done].
      destruct (Hp j g n Hg Hn) as (H1 & H2 & H3).
      split; [done|]. split; [done|].
      intros k g' Hg2. apply lookup_snoc_Some in Hg2.
      destruct Hg2 as [[_ Hg2]|[_ <-]]; [by apply H3|].
      split; [done|]. by intros _.
  - by apply (thread_step_safe c i f f' ctl a w').
Qed.

(** However calls of [RefreshDisableCaching] interleave, and whether or not
    their allocations succeed, the active-cache handle and the retired-cache
    slot never designate a freed cell: starting with no call in flight and
    each of the two pointers null or on a live cache, each of them is null or
    on a live cache in every configuration reached.  (A losing call releases
    its own replacement only, and no call releases the outgoing cache.) *)
Theorem handles_never_dangle (c0 c : config) :
  frames c0 = [] ->
  (pathCache_ (this (shared c0)) = None \/
   is_Some (trie_at (objs (shared c0)) (pathCache_ (this (shared c0))))) ->
  (oldPathCache_ (this (shared c0)) = None \/
   is_Some (trie_at (objs (shared c0)) (oldPathCache_ (this (shared c0))))) ->
  rtc pip_step c0 c ->
  (pathCache_ (this (shared c)) = None \/
   is_Some (trie_at (objs (shared c)) (pathCache_ (this (shared c))))) /\
  (oldPathCache_ (this (shared c)) = None \/
   is_Some (trie_at (objs (shared c)) (oldPathCache_ (this (shared c))))).
Proof.
  intros Hnil Ha Hr Hsteps.
  assert (safe c0) as Hsafe.
  { split.
    - by apply live_cache_trie_at.
    - by apply live_cache_trie_at.
    - intros i f Hf. by rewrite Hnil in Hf.
    - intros i f n Hf. by rewrite Hnil in Hf. }
  assert (safe c) as [Ha' Hr' _ _].
  { clear Hnil Ha Hr. induction Hsteps as [|c0 c1 c Hstep _ IH]; [done|].
    apply IH. by eapply pip_step_safe. }
  split; by apply live_cache_trie_at.
Qed.

Lemma handles_never_dangle_witness :
  rtc pip_step (Config two_hits_one_miss []) flag_written /\
  (pathCache_ (this (shared flag_written)) = None \/
   is_Some (trie_at (objs (shared flag_written))
              (pathCache_ (this (shared flag_written))))) /\
  (oldPathCache_ (this (shared flag_written)) = None \/
   is_Some (trie_at (objs (shared flag_written))
              (oldPathCache_ (this (shared flag_written))))).
Proof.
  split; [exact flag_written_reachable|].
  apply (handles_never_dangle (Config two_hits_one_miss []) flag_written).
  - reflexivity.
  - right. by eexists.
  - by left.
  - exact flag_written_reachable.
Defined.

(** ** Two winning swaps *)

(** One more statement of the frame at position [i]. *)
Lemma then_frame (c c' : config) (i : nat) (f f' : frame) ctl alloc_ok w' :
  frames c !! i = Some f ->
  thread_step ctl alloc_ok (shared c) f = Some (w', f') ->
  rtc pip_step (Config w' (<[i := f']> (frames c))) c' ->
  rtc pip_step c c'.
Proof. intros Hf Hs Hrest. eapply rtc_l; [|exact Hrest]. by econstructor. Qed.

Lemma swap_wins ctl alloc_ok (w : world) (n : option nat) :
  thread_step ctl alloc_ok w (Frame L113 (pathCache_ (this w)) n)
  = Some (World (set_pathCache_ n (this w)) (objs w),
          Frame L117 (pathCache_ (this w)) n).
Proof.
  unfold thread_step. cbn [at_ oldCache newCache goto].
  by rewrite OSCompareAndSwapPtr_same.
Qed.

(** The check of the flag and its write are separate statements, so two
    calls can both stand at line 110.  From there both can win their swap:
    the first installs a new cache, the second reads that one as its
    [oldCache] and replaces it again.  In the end both calls have returned
    true, the active handle is the second new cache, the retired slot holds
    the first new cache, and the cache that was active at the start is in
    neither; no cell was released, and a later [free()] does not release
    that cache either. *)
Theorem two_calls_can_both_win (w : world) (a : nat) o1 n1 o2 n2 :
  pathCache_ (this w) = Some a ->
  (a < length (objs w))%nat ->
  exists c,
    rtc pip_step (Config w [Frame L110 o1 n1; Frame L110 o2 n2]) c /\
    returned <$> frames c = [Some true; Some true] /\
    pathCache_ (this (shared c)) = Some (S (length (objs w))) /\
    oldPathCache_ (this (shared c)) = Some (length (objs w)) /\
    objs (shared c)
    = objs w ++ [Cell 1 (ObjTrie []); Cell 1 (ObjTrie [])] /\
    (payload_ (this w) ≠ Some a -> lastPathLookup_ (this w) ≠ Some a ->
     (free (this (shared c)) (objs (shared c))).2 !! a = objs w !! a).
Proof.
  intros Ha Hlt. destruct w as [t h]. cbn [this objs] in *.
  eexists. split.
  { (* first call: lines 110, 111, 112, 113 *)
    eapply (then_frame _ _ 0 _ _ min0_max67 true); [reflexivity|reflexivity|].
    cbn [frames shared this objs goto at_ oldCache newCache insert
         list_insert].
    eapply (then_frame _ _ 0 _ _ min0_max67 true); [reflexivity|reflexivity|].
    cbn [frames shared this objs goto at_ oldCache newCache insert
         list_insert].
    eapply (then_frame _ _ 0 _ _ min0_max67 true); [reflexivity|reflexivity|].
    cbn [frames shared this objs goto at_ oldCache newCache insert
         list_insert createPathTrie alloc].
    eapply (then_frame _ _ 0 _ _ min0_max67 true);
      [reflexivity|apply swap_wins|].
    cbn [frames shared this objs goto at_ oldCache newCache insert
         list_insert].
    (* second call: lines 110, 111, 112, 113 *)
    eapply (then_frame _ _ 1 _ _ min0_max67 true); [reflexivity|reflexivity|].
    cbn [frames shared this objs goto at_ oldCache newCache insert
         list_insert].
    eapply (then_frame _ _ 1 _ _ min0_max67 true); [reflexivity|reflexivity|].
    cbn [frames shared this objs goto at_ oldCache newCache insert
         list_insert].
    eapply (then_frame _ _ 1 _ _ min0_max67 true); [reflexivity|reflexivity|].
    cbn [frames shared this objs goto at_ oldCache newCache insert
         list_insert createPathTrie alloc].
    eapply (then_frame _ _ 1 _ _ min0_max67 true);
      [reflexivity|apply swap_wins|].
    cbn [frames shared this objs goto at_ oldCache newCache insert
         list_insert].
    (* both calls: lines 117 and 127 *)
    eapply (then_frame _ _ 0 _ _ min0_max67 true); [reflexivity|reflexivity|].
    cbn [frames shared this objs goto at_ oldCache newCache insert
         list_insert].
    eapply (then_frame _ _ 1 _ _ min0_max67 true); [reflexivity|reflexivity|].
    cbn [frames shared this objs goto at_ oldCache newCache insert
         list_insert].
    eapply (then_frame _ _ 0 _ _ min0_max67 true); [reflexivity|reflexivity|].
    cbn [frames shared this objs goto at_ oldCache newCache insert
         list_insert].
    eapply (then_frame _ _ 1 _ _ min0_max67 true); [reflexivity|reflexivity|].
    cbn [frames shared this objs goto at_ oldCache newCache insert
         list_insert].
    apply rtc_refl. }
  cbn [frames shared this objs].
  split; [reflexivity|].
  split. { cbn. rewrite length_app. cbn. f_equal. lia. }
  split; [reflexivity|].
  split. { by rewrite <- app_assoc. }
  intros Hp Hl. unfold free.
  cbn [payload_ lastPathLookup_ pathCache_ oldPathCache_ set_payload_
       set_lastPathLookup_ set_pathCache_ set_oldPathCache_
       set_disableCaching_].
  destruct (payload_ t) as [pl|], (lastPathLookup_ t) as [tl|];
    cbn [OSSafeReleaseNULL fst snd];
    rewrite !release_lookup_ne, !lookup_app_l;
    rewrite ?length_app; cbn [length]; try lia; try congruence; done.
Qed.

(** Two calls on the tracker of [two_hits_one_miss] pass the check one after
    the other before either writes the flag. *)
Lemma both_at_line_110 :
  rtc pip_step (Config two_hits_one_miss [])
    (Config two_hits_one_miss [Frame L110 None None; Frame L110 None None]).
Proof.
  eapply rtc_l; [apply (step_call (Config two_hits_one_miss []))|].
  eapply rtc_l; [apply (step_call (Config two_hits_one_miss [entry]))|].
  cbn [frames shared app].
  eapply (then_frame _ _ 0 _ _ min0_max67 true); [reflexivity|reflexivity|].
  cbn [frames shared insert list_insert].
  eapply (then_frame _ _ 0 _ _ min0_max67 true); [reflexivity|reflexivity|].
  cbn [frames shared insert list_insert].
  eapply (then_frame _ _ 0 _ _ min0_max67 true); [reflexivity|reflexivity|].
  cbn [frames shared insert list_insert].
  eapply (then_frame _ _ 1 _ _ min0_max67 true); [reflexivity|reflexivity|].
  cbn [frames shared insert list_insert].
  eapply (then_frame _ _ 1 _ _ min0_max67 true); [reflexivity|reflexivity|].
  cbn [frames shared insert list_insert].
  eapply (then_frame _ _ 1 _ _ min0_max67 true); [reflexivity|reflexivity|].
  cbn [frames shared insert list_insert].
  apply rtc_refl.
Defined.

Lemma two_calls_can_both_win_witness :
  rtc pip_step (Config two_hits_one_miss [])
    (Config two_hits_one_miss [Frame L110 None None; Frame L110 None None]) /\
  exists c,
    rtc pip_step
      (Config two_hits_one_miss [Frame L110 None None; Frame L110 None None])
      c /\
    returned <$> frames c = [Some true; Some true] /\
    pathCache_ (this (shared c)) = Some 2%nat /\
    oldPathCache_ (this (shared c)) = Some 1%nat /\
    objs (shared c)
    = objs two_hits_one_miss ++ [Cell 1 (ObjTrie []); Cell 1 (ObjTrie [])] /\
    (payload_ (this two_hits_one_miss) ≠ Some 0%nat ->
     lastPathLookup_ (this two_hits_one_miss) ≠ Some 0%nat ->
     (free (this (shared c)) (objs (shared c))).2 !! 0%nat
     = objs two_hits_one_miss !! 0%nat).
Proof.
  split; [exact both_at_line_110|].
  apply (two_calls_can_both_win two_hits_one_miss 0 None None None None).
  - reflexivity.
  - vm_compute. lia.
Defined.

(** ** Teardown after a disable transition *)

Lemma released_app_l (p : option nat) (h s : list cell) :
  (forall l, p = Some l -> (l < length h)%nat) ->
  released p (h ++ s) = released p h ++ s.
Proof.
  intros Hp. unfold released. destruct p as [l|]; cbn; [|done].
  apply release_app_l. by apply Hp.
Qed.

Lemma length_released (p : option nat) (h : list cell) :
  length (released p h) = length h.
Proof. unfold released. destruct p; cbn; [apply length_release|done]. Qed.

Lemma free_heap (t : SandboxedPip) (h : list cell) :
  (free t h).2
  = released (oldPathCache_ t)
      (released (pathCache_ t)
         (released (lastPathLookup_ t) (released (payload_ t) h))).
Proof.
  destruct t as [cp pl pid tc cs dc cc fm old pc tl].
  unfold free, released.
  cbn [payload_ lastPathLookup_ pathCache_ oldPathCache_ set_payload_
       set_lastPathLookup_ set_pathCache_ set_oldPathCache_].
  destruct pl, tl, pc, old; cbn; done.
Qed.

(** A call that disables caching on a tracker with an empty retired slot,
    followed by [free()]: the heap is what [free()] without the call would
    have left, followed by the replacement cache, dead.  So the outgoing
    cache, which the call kept alive in [oldPathCache_], is released by the
    teardown, once, together with the replacement. *)
Theorem teardown_after_disable ctl (w w' : world) :
  disableCaching_ (this w) = false ->
  oldPathCache_ (this w) = None ->
  (forall l, payload_ (this w) = Some l -> (l < length (objs w))%nat) ->
  (forall l, lastPathLookup_ (this w) = Some l ->
     (l < length (objs w))%nat) ->
  (forall l, pathCache_ (this w) = Some l -> (l < length (objs w))%nat) ->
  RefreshDisableCaching ctl true w = Some (w', true) ->
  (free (this w') (objs w')).2
  = (free (this w) (objs w)).2 ++ [Cell 0 (ObjTrie [])].
Proof.
  destruct w as [t h]. cbn [this objs].
  intros Hd Ho Hpl Htl Hpc. unfold RefreshDisableCaching.
  cbn [this objs]. rewrite Hd. cbn [negb].
  destruct (ShouldDisableCaching ctl _) as [[]|];
    cbn [mbind option_bind]; [|congruence|done].
  cbn [createPathTrie alloc].
  rewrite OSCompareAndSwapPtr_same. intros [= <-]. cbn [this objs].
  rewrite !free_heap.
  cbn [payload_ lastPathLookup_ pathCache_ oldPathCache_ set_pathCache_
       set_oldPathCache_ set_disableCaching_].
  rewrite Ho.
  rewrite (released_app_l (payload_ t)) by done.
  rewrite (released_app_l (lastPathLookup_ t))
    by (intros l Hl; rewrite length_released; by apply Htl).
  set (h1 := released (lastPathLookup_ t) (released (payload_ t) h)).
  assert (length h1 = length h) as Hlen
      by (unfold h1; by rewrite !length_released).
  unfold released at 2. cbn [OSSafeReleaseNULL fst].
  rewrite <- Hlen, <- (Nat.add_0_r (length h1)), release_app_r.
  cbn [release alter list_alter].
  rewrite (released_app_l (pathCache_ t))
    by (intros l Hl; rewrite Hlen; by apply Hpc).
  unfold released at 3. cbn [OSSafeReleaseNULL fst]. done.
Qed.

Lemma teardown_after_disable_witness :
  exists w',
    RefreshDisableCaching min0_max67 true two_hits_one_miss = Some (w', true)
    /\ (free (this w') (objs w')).2
       = (free (this two_hits_one_miss) (objs two_hits_one_miss)).2
         ++ [Cell 0 (ObjTrie [])].
Proof.
  eexists. split.
  - vm_compute. reflexivity.
  - apply (teardown_after_disable min0_max67 two_hits_one_miss).
    + reflexivity.
    + reflexivity.
    + intros l [=].
    + intros l [=].
    + intros l [= <-]. vm_compute. lia.
    + vm_compute. reflexivity.
Defined.

(* ===================================================================== *)
(** * Further properties of [CanonicalizedPath] *)
(* ===================================================================== *)

Local Open Scope method_scope.

(** A path built by [CanonicalizedPath(type, value, n)] from a buffer of at
    least [n] characters carries [type], has length [n], and
    [GetPathString] designates the first [n] characters of [value]; the
    strings of the paths built before are as they were. *)
Theorem constructed_path_round_trip
    (type : PathType) (value : list N) (n : nat) (st : list (list N)) :
  (n <= length value)%nat ->
  let p := (CanonicalizedPath_new type value n st).1 in
  let st' := (CanonicalizedPath_new type value n st).2 in
  Type_ p = type /\
  IsNull (p, st') = Some (bool_decide (type = Null), (p, st')) /\
  Length (p, st') = Some (n, (p, st')) /\
  (exists r, GetPathString (p, st') = Some (r, (p, st')) /\
             c_str_at st' r = Some (take n value)) /\
  (forall b s, st !! b = Some s -> st' !! b = Some s).
Proof.
  intros Hn. cbn [CanonicalizedPath_new fst snd].
  split; [done|]. split; [done|].
  split.
  { unfold Length, bind, get_m_value, get_store, ret. cbn [fst snd m_value].
    rewrite lookup_app_r, Nat.sub_diag by done. cbn.
    by rewrite length_take, Nat.min_l. }
  split.
  { exists (wat (length st) 0). split; [done|].
    cbn. rewrite lookup_app_r, Nat.sub_diag by done. cbn.
    by rewrite decide_True by lia. }
  intros b s Hs. by apply lookup_app_l_Some.
Qed.

Lemma constructed_path_round_trip_witness :
  (10 <= length (L "\\?\C:\src"))%nat /\
  Length extended_path = Some (10%nat, extended_path) /\
  exists r, GetPathString extended_path = Some (r, extended_path) /\
            c_str_at extended_path.2 r = Some (take 10 (L "\\?\C:\src")).
Proof.
  split; [vm_compute; lia|].
  destruct (constructed_path_round_trip Win32Nt (L "\\?\C:\src") 10 [])
    as (_ & _ & Hlen & Hstr & _).
  - vm_compute. lia.
  - split; [exact Hlen|exact Hstr].
Defined.

(** Construction from a four-character prefix followed by [rest], with tag
    [Win32Nt] or [LocalDevice], then [GetPathStringWithoutTypePrefix]: the
    result designates [rest], and nothing is changed. *)
Theorem prefix_is_stripped
    (type : PathType) (prefix rest : list N) (st : list (list N)) :
  length prefix = 4%nat ->
  type = Win32Nt \/ type = LocalDevice ->
  let built :=
    CanonicalizedPath_new type (prefix ++ rest) (4 + length rest) st in
  exists r,
    GetPathStringWithoutTypePrefix built = Some (r, built) /\
    c_str_at built.2 r = Some rest.
Proof.
  intros Hp Ht. cbn zeta.
  assert (take (4 + length rest) (prefix ++ rest) = prefix ++ rest) as Htake.
  { apply take_ge. rewrite length_app. lia. }
  assert (4 <= length (prefix ++ rest))%nat as Hlen.
  { rewrite length_app. lia. }
  assert (drop 4 (prefix ++ rest) = rest) as Hdrop.
  { by rewrite <- Hp, drop_app_length. }
  exists (wat (length st) 4).
  unfold CanonicalizedPath_new. rewrite Htake.
  revert Hlen Hdrop. generalize (prefix ++ rest). intros s Hlen Hdrop.
  assert ((st ++ [s]) !! length st = Some s) as Hs.
  { by rewrite lookup_app_r, Nat.sub_diag. }
  unfold c_str_at. cbn [snd]. rewrite Hs. cbn [mbind option_bind].
  rewrite decide_True by lia. rewrite Hdrop. split; [|done].
  unfold GetPathStringWithoutTypePrefix, GetPathString, bind, get_Type,
    get_m_value, get_store, ptr_add, ret.
  cbn [fst snd Type_ m_value].
  destruct Ht as [-> | ->]; cbn; rewrite Hs; cbn;
    by rewrite decide_True by lia.
Qed.

Lemma prefix_is_stripped_witness :
  length (L "\\.\") = 4%nat /\
  exists r,
    GetPathStringWithoutTypePrefix
      (CanonicalizedPath_new LocalDevice (L "\\.\" ++ L "COM1")
         (4 + length (L "COM1")) [])
    = Some (r, CanonicalizedPath_new LocalDevice (L "\\.\" ++ L "COM1")
                 (4 + length (L "COM1")) []) /\
    c_str_at
      (CanonicalizedPath_new LocalDevice (L "\\.\" ++ L "COM1")
         (4 + length (L "COM1")) []).2 r
    = Some (L "COM1").
Proof.
  split; [reflexivity|].
  apply (prefix_is_stripped LocalDevice (L "\\.\") (L "COM1") []).
  - reflexivity.
  - by right.
Defined.

(** After the move constructor has run on [other], [other] is the
    default-constructed path: [IsNull()] holds, [Length()] is 0 and both
    string accessors return nullptr, whatever [other] was. *)
Theorem moved_from_is_default (other : CanonicalizedPath) (st : list (list N)) :
  exists q,
    CanonicalizedPath_move (other, st)
      = Some (q, (CanonicalizedPath_default, st)) /\
    IsNull (CanonicalizedPath_default, st)
      = Some (true, (CanonicalizedPath_default, st)) /\
    Length (CanonicalizedPath_default, st)
      = Some (0%nat, (CanonicalizedPath_default, st)) /\
    GetPathString (CanonicalizedPath_default, st)
      = Some (wnull, (CanonicalizedPath_default, st)) /\
    GetPathStringWithoutTypePrefix (CanonicalizedPath_default, st)
      = Some (wnull, (CanonicalizedPath_default, st)).
Proof. destruct other as [type value]. by eexists. Qed.

(* ===================================================================== *)
(** * [PCT] without a hit *)
(* ===================================================================== *)

Local Close Scope method_scope.

Lemma digits2_pos_iter_xO (m d : positive) :
  digits2_pos (Pos.iter xO m d) = (digits2_pos m + d)%positive.
Proof.
  induction d as [|d IH] using Pos.peano_ind.
  - cbn. lia.
  - rewrite Pos.iter_succ. cbn [digits2_pos]. rewrite IH. lia.
Qed.

Lemma digits2_pos_bound (m : positive) (k : nat) :
  (Z.pos m < 2 ^ Z.of_nat k) -> (Z.pos (digits2_pos m) <= Z.of_nat k).
Proof.
  revert k. induction m as [m IH|m IH|]; intros k Hk.
  - destruct k as [|k]; [cbn in Hk; lia|].
    rewrite Nat2Z.inj_succ, Z.pow_succ_r in Hk by lia.
    cbn [digits2_pos]. specialize (IH k). lia.
  - destruct k as [|k]; [cbn in Hk; lia|].
    rewrite Nat2Z.inj_succ, Z.pow_succ_r in Hk by lia.
    cbn [digits2_pos]. specialize (IH k). lia.
  - destruct k as [|k]; [cbn in Hk; lia|]. cbn [digits2_pos]. lia.
Qed.

(** Rounding leaves a mantissa of 53 digits with an exponent in range as it
    is. *)
Lemma binary_round_aux_canonical (s : bool) (m : positive) (e : Z) :
  Z.pos (digits2_pos m) = 53 ->
  -1074 <= e <= 971 ->
  binary_round_aux Double.prec Double.emax s (Z.pos m) e loc_Exact
  = S754_finite s m e.
Proof.
  intros Hd He.
  assert (fexp Double.prec Double.emax (Z.pos (digits2_pos m) + e) - e = 0)
    as Hf.
  { rewrite Hd. unfold fexp, emin, Double.prec, Double.emax. lia. }
  unfold binary_round_aux, shr_fexp.
  cbn [Zdigits2 shr_record_of_loc]. rewrite Hf.
  cbn [shr loc_of_shr_record shr_m round_nearest_even Zdigits2
       shr_record_of_loc].
  rewrite Hf. cbn [shr shr_m].
  unfold Double.emax, Double.prec.
  destruct (Z.leb_spec e (1024 - 53)); [done|lia].
Qed.

(** A positive integer below 2^53 converts to a positive finite [double]. *)
Lemma of_int_positive (b : Z) :
  0 < b < 2 ^ 53 ->
  exists m e, Double.of_int b = S754_finite false m e.
Proof.
  intros [Hpos Hlt]. destruct b as [|p|p]; [lia| |lia].
  unfold Double.of_int, binary_normalize, binary_round.
  pose proof (digits2_pos_bound p 53 Hlt) as Hd.
  assert (fexp Double.prec Double.emax (Z.pos (digits2_pos p) + 0)
          = Z.pos (digits2_pos p) - 53) as Hf.
  { unfold fexp, emin, Double.prec, Double.emax. lia. }
  rewrite Hf. unfold shl_align.
  destruct (Z.pos (digits2_pos p) - 53 - 0) as [|d|d] eqn:Hsub.
  - eexists _, _. apply binary_round_aux_canonical; lia.
  - lia.
  - eexists _, _. apply binary_round_aux_canonical; [|lia].
    rewrite digits2_pos_iter_xO. lia.
Qed.

(** With no hit and at least one miss the percentage is 0. *)
Lemma PCT_no_hit (misses : Z) :
  0 < misses < 2 ^ 53 -> PCT 0 misses = Some 0.
Proof.
  intros Hm. unfold PCT. rewrite Z.add_0_l.
  destruct (of_int_positive misses Hm) as (m & e & ->).
  reflexivity.
Qed.

(** A positive integer below 2^53 converts to a [double] whose mantissa has
    53 digits. *)
Lemma of_int_canonical (a : Z) :
  0 < a < 2 ^ 53 ->
  exists m e,
    Double.of_int a = S754_finite false m e /\
    Z.pos (digits2_pos m) = 53 /\ -52 <= e <= 0.
Proof.
  intros [Hpos Hlt]. destruct a as [|p|p]; [lia| |lia].
  unfold Double.of_int, binary_normalize, binary_round.
  pose proof (digits2_pos_bound p 53 Hlt) as Hd.
  assert (fexp Double.prec Double.emax (Z.pos (digits2_pos p) + 0)
          = Z.pos (digits2_pos p) - 53) as Hf.
  { unfold fexp, emin, Double.prec, Double.emax. lia. }
  rewrite Hf. unfold shl_align.
  destruct (Z.pos (digits2_pos p) - 53 - 0) as [|d|d] eqn:Hsub.
  - exists p, 0. split; [apply binary_round_aux_canonical; lia|]. lia.
  - lia.
  - exists (Pos.iter xO p d), (Z.pos (digits2_pos p) - 53).
    assert (Z.pos (digits2_pos (Pos.iter xO p d)) = 53) as Hd'.
    { rewrite digits2_pos_iter_xO. lia. }
    split; [apply binary_round_aux_canonical; [done|lia]|].
    split; [done|lia].
Qed.

Lemma mul_iter_xO (m d : positive) :
  (m * Pos.iter xO 1 d)%positive = Pos.iter xO m d.
Proof.
  induction d as [|d IH] using Pos.peano_ind.
  - cbn. lia.
  - rewrite !Pos.iter_succ, Pos.mul_xO_r. by rewrite IH.
Qed.

Lemma shr_52_exact (m : positive) :
  SpecFloat.iter_pos shr_1 52
    {| shr_m := Z.pos (Pos.iter xO m 52); shr_r := false; shr_s := false |}
  = {| shr_m := Z.pos m; shr_r := false; shr_s := false |}.
Proof. vm_compute. reflexivity. Qed.

(** The product with [1.0] is exact. *)
Lemma mul_one (m : positive) (e : Z) :
  Z.pos (digits2_pos m) = 53 -> -52 <= e <= 0 ->
  Double.mul (S754_finite false m e) (Double.of_int 1)
  = S754_finite false m e.
Proof.
  intros Hd He.
  change (Double.of_int 1) with (S754_finite false 4503599627370496 (-52)).
  unfold Double.mul, SFmul. cbn [xorb].
  change 4503599627370496%positive with (Pos.iter xO 1%positive 52).
  rewrite mul_iter_xO.
  assert (fexp Double.prec Double.emax
            (Z.pos (digits2_pos (Pos.iter xO m 52)) + (e + -52))
          - (e + -52) = 52) as Hf1.
  { rewrite digits2_pos_iter_xO.
    unfold fexp, emin, Double.prec, Double.emax. lia. }
  assert (fexp Double.prec Double.emax
            (Z.pos (digits2_pos m) + (e + -52 + 52))
          - (e + -52 + 52) = 0) as Hf2.
  { unfold fexp, emin, Double.prec, Double.emax. lia. }
  unfold binary_round_aux, shr_fexp.
  cbn [Zdigits2 shr_record_of_loc]. rewrite Hf1.
  cbn [shr]. rewrite shr_52_exact.
  cbn [loc_of_shr_record shr_m round_nearest_even Zdigits2
       shr_record_of_loc].
  rewrite Hf2. cbn [shr shr_m].
  replace (e + -52 + 52) with e by lia.
  unfold Double.emax, Double.prec.
  destruct (Z.leb_spec e (1024 - 53)); [done|lia].
Qed.

(** A positive finite [double] divided by itself is [1.0]. *)
Lemma div_self (m : positive) (e : Z) :
  Z.pos (digits2_pos m) = 53 ->
  Double.div (S754_finite false m e) (S754_finite false m e)
  = S754_finite false 4503599627370496 (-52).
Proof.
  intros Hd. unfold Double.div, SFdiv, SFdiv_core_binary.
  cbn [xorb Zdigits2]. rewrite Hd.
  replace (53 + e - (53 + e)) with 0 by lia.
  replace (e - e) with 0 by lia.
  change (Z.min (fexp Double.prec Double.emax 0) 0) with (-53).
  change (0 - -53) with 53.
  cbn match.
  rewrite Z.shiftl_mul_pow2 by lia.
  assert (Z.div_eucl (Z.pos m * 2 ^ 53) (Z.pos m) = (2 ^ 53, 0)) as ->.
  { destruct (Z.div_eucl (Z.pos m * 2 ^ 53) (Z.pos m)) as [q r] eqn:E.
    assert (q = Z.pos m * 2 ^ 53 / Z.pos m) as ->
        by (unfold Z.div; by rewrite E).
    assert (r = (Z.pos m * 2 ^ 53) mod Z.pos m) as ->
        by (unfold Z.modulo; by rewrite E).
    rewrite (Z.mul_comm (Z.pos m)), Z_div_mult, Z_mod_mult by lia. done. }
  assert (new_location (Z.pos m) 0 = loc_Exact) as ->.
  { unfold new_location, new_location_even, new_location_odd.
    by destruct (Z.even _). }
  vm_compute. reflexivity.
Qed.

(** With at least one hit and no miss the percentage is 100. *)
Lemma PCT_no_miss (hits : Z) :
  0 < hits < 2 ^ 53 -> PCT hits 0 = Some 100.
Proof.
  intros Hh. unfold PCT. rewrite Z.add_0_r.
  destruct (of_int_canonical hits Hh) as (m & e & -> & Hd & He).
  rewrite mul_one, div_self by done.
  vm_compute. reflexivity.
Qed.

(** The two ends of the scale: with counters below 2^53, [PCT] is 0 when
    there is no hit and at least one miss, and 100 when there is no miss and
    at least one hit. *)
Theorem PCT_extremes (n : Z) :
  0 < n < 2 ^ 53 -> PCT 0 n = Some 0 /\ PCT n 0 = Some 100.
Proof. intros Hn. split; [by apply PCT_no_hit|by apply PCT_no_miss]. Qed.

Lemma PCT_extremes_witness :
  0 < 5 < 2 ^ 53 /\ PCT 0 5 = Some 0 /\ PCT 5 0 = Some 100.
Proof. split; [lia|]. apply (PCT_extremes 5). lia. Defined.

(** A cache that has grown past the minimum without a single hit is given
    up: on an enabled tracker with a live cache of more than
    [g_bxl_disable_cache_min_entries] entries, no hit, between 1 and 2^53
    misses and a positive [g_bxl_disable_cache_max_hit_pct], the call
    disables caching and returns true, even when its allocation fails. *)
Theorem cache_without_hits_is_disabled ctl alloc_ok (w : world) entries :
  disableCaching_ (this w) = false ->
  trie_at (objs w) (pathCache_ (this w)) = Some entries ->
  g_bxl_disable_cache_min_entries ctl < getCount entries ->
  numCacheHits (counters_ (this w)) = 0%N ->
  0 < Z.of_N (numCacheMisses (counters_ (this w))) < 2 ^ 53 ->
  0 < g_bxl_disable_cache_max_hit_pct ctl ->
  exists w',
    RefreshDisableCaching ctl alloc_ok w = Some (w', true) /\
    disableCaching_ (this w') = true /\
    oldPathCache_ (this w') = pathCache_ (this w).
Proof.
  intros Hd Ht Hgt Hh Hm Hmax.
  unfold RefreshDisableCaching, ShouldDisableCaching.
  rewrite Hd, Ht, Hh. cbn [negb mbind option_bind N2Z.inj].
  assert ((getCount entries >? g_bxl_disable_cache_min_entries ctl) = true)
    as -> by lia.
  change (Z.of_N 0) with 0. rewrite PCT_no_hit by done.
  cbn [mbind option_bind].
  assert ((0 <? g_bxl_disable_cache_max_hit_pct ctl) = true) as -> by lia.
  destruct (createPathTrie alloc_ok (objs w)) as [h p].
  rewrite OSCompareAndSwapPtr_same. by eexists.
Qed.

(** A cache that never missed is kept: with no miss, between 1 and 2^53
    hits and [g_bxl_disable_cache_max_hit_pct] at most 100, the call changes
    nothing and returns false, however many entries the cache has. *)
Theorem cache_without_misses_is_kept ctl alloc_ok (w : world) entries :
  disableCaching_ (this w) = false ->
  trie_at (objs w) (pathCache_ (this w)) = Some entries ->
  numCacheMisses (counters_ (this w)) = 0%N ->
  0 < Z.of_N (numCacheHits (counters_ (this w))) < 2 ^ 53 ->
  g_bxl_disable_cache_max_hit_pct ctl <= 100 ->
  RefreshDisableCaching ctl alloc_ok w = Some (w, false).
Proof.
  intros Hd Ht Hm Hh Hmax.
  unfold RefreshDisableCaching, ShouldDisableCaching.
  rewrite Hd, Ht, Hm. cbn [negb mbind option_bind].
  change (Z.of_N 0) with 0. rewrite PCT_no_miss by done.
  cbn [mbind option_bind].
  assert ((100 <? g_bxl_disable_cache_max_hit_pct ctl) = false) as -> by lia.
  by destruct (getCount entries >? _).
Qed.

(** A tracker whose cache holds two entries after two misses and no hit,
    and one whose single entry was hit five times without a miss. *)
Definition two_misses : world :=
  World
    {| clientPid_ := 1; payload_ := None; processId_ := 2;
       processTreeCount_ := 1;
       counters_ := {| numCacheHits := 0; numCacheMisses := 2 |};
       disableCaching_ := false; cacheCallCnt_ := 0;
       fam_ := {| fam_error := None; fam_pipId := 0 |};
       oldPathCache_ := None; pathCache_ := Some 0%nat;
       lastPathLookup_ := None |}
    [Cell 1 (ObjTrie ["/a"%string; "/b"%string])].

Definition five_hits : world :=
  World
    {| clientPid_ := 1; payload_ := None; processId_ := 2;
       processTreeCount_ := 1;
       counters_ := {| numCacheHits := 5; numCacheMisses := 0 |};
       disableCaching_ := false; cacheCallCnt_ := 0;
       fam_ := {| fam_error := None; fam_pipId := 0 |};
       oldPathCache_ := None; pathCache_ := Some 0%nat;
       lastPathLookup_ := None |}
    [Cell 1 (ObjTrie ["/a"%string])].

Lemma cache_without_hits_is_disabled_witness :
  disableCaching_ (this two_misses) = false /\
  exists w',
    RefreshDisableCaching min0_max67 false two_misses = Some (w', true) /\
    disableCaching_ (this w') = true /\
    oldPathCache_ (this w') = pathCache_ (this two_misses).
Proof.
  split; [reflexivity|].
  apply (cache_without_hits_is_disabled min0_max67 false two_misses
           ["/a"%string; "/b"%string]).
  - reflexivity.
  - reflexivity.
  - vm_compute. reflexivity.
  - reflexivity.
  - vm_compute. split; reflexivity.
  - vm_compute. reflexivity.
Defined.

Lemma cache_without_misses_is_kept_witness :
  disableCaching_ (this five_hits) = false /\
  RefreshDisableCaching min0_max67 true five_hits = Some (five_hits, false).
Proof.
  split; [reflexivity|].
  apply (cache_without_misses_is_kept min0_max67 true five_hits
           ["/a"%string]).
  - reflexivity.
  - reflexivity.
  - reflexivity.
  - vm_compute. split; reflexivity.
  - vm_compute. discriminate.
Defined.
